(** * Zilswap web application

    A shallow embedding of two pieces of the web application:

    - [Preference]: the preference reducer of the store
      (src/app/store/preference/reducer.ts), with [localStorage] threaded
      through as explicit state;
    - [Butler]: the background service [AppButler] with its helpers
      [mapZilswapToken] and [zilParamsToMap].

    Conventions.  A JavaScript object used as a dictionary is a [gmap] over
    its own string keys (inherited properties of [Object.prototype] are not
    part of the model).  A property that may hold [undefined] has an [option]
    type, [None] standing for [undefined].  A [BN] is an integer of arbitrary
    size, hence [Z].  Strings are sequences of ASCII characters, which covers
    the hexadecimal addresses and the identifiers the code handles. *)

From Stdlib Require Import ZArith Ascii String List.
From stdpp Require Import base option list strings gmap fin_maps.

Local Open Scope string_scope.

(** ** JavaScript helpers *)

Module JS.

(** [c.toLowerCase()] on one ASCII character: the letters A to Z move to
    a to z, every other character stays. *)
Definition lower_ascii (c : ascii) : ascii :=
  let n := N_of_ascii c in
  if ((65 <=? n) && (n <=? 90))%N then ascii_of_N (n + 32) else c.

(** [String.prototype.toLowerCase]. *)
Fixpoint toLowerCase (s : string) : string :=
  match s with
  | EmptyString => EmptyString
  | String c s' => String (lower_ascii c) (toLowerCase s')
  end.

(** Truthiness of a value that is a string, [null] or [undefined]: only a
    non-empty string is truthy. *)
Definition truthy (v : option string) : bool :=
  match v with
  | Some s => negb (String.eqb s "")
  | None => false
  end.

(** [Array.prototype.includes] on an array of strings. *)
Definition includes (l : list string) (s : string) : bool :=
  existsb (String.eqb s) l.

End JS.

(** ** The preference reducer *)

Module Preference.

Definition LOCAL_STORAGE_KEY_THEME : string := "zilswap:theme".
Definition VALID_THEMES : list string := ["dark"; "light"].

(** [PreferenceState]: the theme.  The declared type is [string]; the
    spread in the reducer can store [undefined] there, hence the option. *)
Record PreferenceState := mkPreferenceState { theme : option string }.

(** An optional property of an object literal: the key is missing, or it is
    there with a value (which may be [undefined]). *)
Inductive property (A : Type) :=
| Absent
| Present (v : option A).
Arguments Absent {A}.
Arguments Present {A} v.

(** [PreferenceStateUpdateProps]: [{ theme?: string }]. *)
Record PreferenceStateUpdateProps := mkUpdateProps { payload_theme : property string }.

Record Action := mkAction { type : string; payload : PreferenceStateUpdateProps }.

(** [localStorage], a dictionary from keys to strings. *)
Abbreviation Storage := (gmap string string).

(** [{ ...state, ...payload }] *)
Definition spread (state : PreferenceState) (p : PreferenceStateUpdateProps) : PreferenceState :=
  match payload_theme p with
  | Absent => state
  | Present v => {| theme := v |}
  end.

(** [const { theme } = updatePayload]: a missing key reads as [undefined]. *)
Definition read_theme (p : PreferenceStateUpdateProps) : option string :=
  match payload_theme p with
  | Absent => None
  | Present v => v
  end.

(** [theme !== currentTheme] where [theme] is a string. *)
Definition differs (theme : string) (currentTheme : option string) : bool :=
  match currentTheme with
  | Some c => negb (String.eqb theme c)
  | None => true
  end.

Definition checkToSaveThemePreference (currentTheme : option string)
    (updatePayload : PreferenceStateUpdateProps) (localStorage : Storage) : Storage :=
  let theme := read_theme updatePayload in
  if negb (JS.truthy theme) then localStorage
  else match theme with
       | Some theme =>
           if differs theme currentTheme && JS.includes VALID_THEMES theme
           then <[LOCAL_STORAGE_KEY_THEME := theme]> localStorage
           else localStorage
       | None => localStorage
       end.

Section Reducer.

(** The action type constants of ./actions. *)
Variables TYPES_INIT TYPES_UPDATE : string.

(** What the module reads when it is loaded: the media query and the
    theme saved earlier ([None] for [null]). *)
Variable prefersDarkMode : bool.
Variable savedThemePreference : option string.

Definition initialTheme : string :=
  match savedThemePreference with
  | Some s => if JS.truthy savedThemePreference then s
              else if prefersDarkMode then "dark" else "light"
  | None => if prefersDarkMode then "dark" else "light"
  end.

Definition initial_state : PreferenceState :=
  {| theme := Some (if JS.includes VALID_THEMES initialTheme then initialTheme else "light") |}.

(** The reducer; [state = None] is the call with [undefined], which takes
    the default parameter.  The result is the new state and the contents
    of [localStorage] afterwards. *)
Definition reducer (state : option PreferenceState) (actions : Action)
    (localStorage : Storage) : PreferenceState * Storage :=
  let state := default initial_state state in
  if String.eqb (type actions) TYPES_INIT then
    (spread state (payload actions), localStorage)
  else if String.eqb (type actions) TYPES_UPDATE then
    let localStorage' := checkToSaveThemePreference (theme state) (payload actions) localStorage in
    (spread state (payload actions), localStorage')
  else (state, localStorage).

End Reducer.

End Preference.

(** ** The butler: data *)

Module Butler.

(** [BN], the integers of arbitrary size of @zilliqa-js/util. *)
Abbreviation BN := Z.

(** [TokenDetails] of zilswap-sdk, reduced to the fields the butler reads. *)
Record TokenDetails := mkTokenDetails {
  td_address : string;
  td_decimals : Z;
  td_symbol : string;
}.

(** [Value] of @zilliqa-js/contract: one named parameter of a contract. *)
Record Value := mkValue {
  vname : string;
  vtype : string;
  value : string;
}.

Record AddressInfo := mkAddressInfo {
  byte20 : string;
  bech32 : string;
  privateKey : option string;
}.

Record ConnectedWallet := mkConnectedWallet {
  addressInfo : AddressInfo;
  wallet_balance : BN;
  network : string;
}.

Record ObservedTx := mkObservedTx {
  tx_hash : string;
  deadline : Z;
}.

(** [TokenInfo], the record the store keeps per token.  [Pool] is the pool
    type of zilswap-sdk, which the butler only passes on. *)
Record TokenInfo (Pool : Type) := mkTokenInfo {
  initialized : bool;
  isZil : bool;
  dirty : bool;
  loading : option bool;
  listPriority : option Z;
  address : string;
  decimals : Z;
  symbol : option string;
  name : option string;
  balance : BN;
  init_supply : BN;
  balances : gmap string BN;
  pool : option Pool;
}.
Arguments mkTokenInfo {Pool}.
Arguments initialized {Pool}.
Arguments isZil {Pool}.
Arguments dirty {Pool}.
Arguments loading {Pool}.
Arguments listPriority {Pool}.
Arguments address {Pool}.
Arguments decimals {Pool}.
Arguments symbol {Pool}.
Arguments name {Pool}.
Arguments balance {Pool}.
Arguments init_supply {Pool}.
Arguments balances {Pool}.
Arguments pool {Pool}.

(** The payload of [Token.update]: the address and any subset of the other
    properties.  [None] is a missing key; for a property that can hold
    [undefined] the inner option is its value. *)
Record TokenUpdateProps (Pool : Type) := mkTokenUpdateProps {
  u_address : string;
  u_initialized : option bool;
  u_isZil : option bool;
  u_dirty : option bool;
  u_loading : option bool;
  u_decimals : option Z;
  u_symbol : option (option string);
  u_name : option (option string);
  u_balance : option BN;
  u_init_supply : option BN;
  u_balances : option (gmap string BN);
  u_pool : option (option Pool);
}.
Arguments mkTokenUpdateProps {Pool}.
Arguments u_address {Pool}.
Arguments u_initialized {Pool}.
Arguments u_isZil {Pool}.
Arguments u_dirty {Pool}.
Arguments u_loading {Pool}.
Arguments u_decimals {Pool}.
Arguments u_symbol {Pool}.
Arguments u_name {Pool}.
Arguments u_balance {Pool}.
Arguments u_init_supply {Pool}.
Arguments u_balances {Pool}.
Arguments u_pool {Pool}.

(** [Transaction] of the store, and the payload of [Transaction.update]
    (the same three properties). *)
Record Transaction (TxReceipt : Type) := mkTransaction {
  hash : string;
  status : string;
  txReceipt : option TxReceipt;
}.
Arguments mkTransaction {TxReceipt}.
Arguments hash {TxReceipt}.
Arguments status {TxReceipt}.
Arguments txReceipt {TxReceipt}.

Record WalletState := mkWalletState {
  wallet : option ConnectedWallet;
}.

Record TokenState (Pool : Type) := mkTokenState {
  token_initialized : bool;
  tokens : gmap string (TokenInfo Pool);
}.
Arguments mkTokenState {Pool}.
Arguments token_initialized {Pool}.
Arguments tokens {Pool}.

Record TransactionState (TxReceipt : Type) := mkTransactionState {
  transactions : list (Transaction TxReceipt);
}.
Arguments mkTransactionState {TxReceipt}.
Arguments transactions {TxReceipt}.

Record RootState (Pool TxReceipt : Type) := mkRootState {
  state_wallet : WalletState;
  state_token : TokenState Pool;
  state_transaction : TransactionState TxReceipt;
}.
Arguments mkRootState {Pool TxReceipt}.
Arguments state_wallet {Pool TxReceipt}.
Arguments state_token {Pool TxReceipt}.
Arguments state_transaction {Pool TxReceipt}.

(** The actions the butler dispatches. *)
Inductive Action (Pool TxReceipt : Type) :=
| Token_init (tokens : gmap string (TokenInfo Pool))
| Token_update (props : TokenUpdateProps Pool)
| Token_invalidate
| Wallet_update (wallet : option ConnectedWallet) (pk : string)
| Transaction_update (props : Transaction TxReceipt).
Arguments Token_init {Pool TxReceipt}.
Arguments Token_update {Pool TxReceipt}.
Arguments Token_invalidate {Pool TxReceipt}.
Arguments Wallet_update {Pool TxReceipt}.
Arguments Transaction_update {Pool TxReceipt}.

(** What the butler reads from outside during one run: the connector
    ([ZilswapConnector], [getBalancesMap]) and the wallet module.  A read
    that goes to the chain gives [None] when its promise is rejected. *)
Record Connector (Pool : Type) := mkConnector {
  getTokens : list TokenDetails;
  getPool : string → option Pool;
  getInit : string → option (list Value);
  getBalancesMap : string → option (gmap string string);
  connectWalletPrivateKey : string → string → option (option ConnectedWallet);
}.
Arguments mkConnector {Pool}.
Arguments getTokens {Pool}.
Arguments getPool {Pool}.
Arguments getInit {Pool}.
Arguments getBalancesMap {Pool}.
Arguments connectWalletPrivateKey {Pool}.

(** ** The store

    The butler only dispatches to the store; the reducers behind [dispatch]
    live in app/store.  The token and wallet reducers are written here after
    the description of the store interface.  What [Transaction.update] does
    to the list of transactions is left open: it is a parameter of the
    store, and a statement that depends on it says what it asks of it. *)

(** The reduction behind [Transaction.update]: the list of transactions
    after a payload has been handled. *)
Class TransactionUpdate (TxReceipt : Type) :=
  updateTransactions :
    Transaction TxReceipt → list (Transaction TxReceipt) → list (Transaction TxReceipt).

Section Store.

Context {Pool TxReceipt : Type} `{!TransactionUpdate TxReceipt}.

(** Modelled from the spec: the merge behind [Token.update], the single
    update entry point that merges a patch into the record of its address
    (a key of the patch overrides the old property, the other properties
    stay). *)
Definition mergeToken (props : TokenUpdateProps Pool) (old : TokenInfo Pool) : TokenInfo Pool :=
  {| initialized := default (initialized old) (u_initialized props);
     isZil := default (isZil old) (u_isZil props);
     dirty := default (dirty old) (u_dirty props);
     loading := match u_loading props with Some b => Some b | None => loading old end;
     listPriority := listPriority old;
     address := u_address props;
     decimals := default (decimals old) (u_decimals props);
     symbol := default (symbol old) (u_symbol props);
     name := default (name old) (u_name props);
     balance := default (balance old) (u_balance props);
     init_supply := default (init_supply old) (u_init_supply props);
     balances := default (balances old) (u_balances props);
     pool := default (pool old) (u_pool props) |}.

(** Modelled from the spec: [Token.invalidate] marks every token of the
    collection dirty. *)
Definition invalidateToken (old : TokenInfo Pool) : TokenInfo Pool :=
  {| initialized := initialized old;
     isZil := isZil old;
     dirty := true;
     loading := loading old;
     listPriority := listPriority old;
     address := address old;
     decimals := decimals old;
     symbol := symbol old;
     name := name old;
     balance := balance old;
     init_supply := init_supply old;
     balances := balances old;
     pool := pool old |}.

(** Modelled from the spec: the token reducer of the store, absent from the
    sources.  [Token.init] installs the collection and marks the token
    state initialized, [Token.update] merges the patch into the record
    that the collection holds under the address of the patch (a patch for
    an address without a record has nothing to merge into and leaves the
    collection as it is), [Token.invalidate] marks every record dirty. *)
Definition tokenReducer (state : TokenState Pool) (action : Action Pool TxReceipt)
    : TokenState Pool :=
  match action with
  | Token_init tokens => {| token_initialized := true; tokens := tokens |}
  | Token_update props =>
      {| token_initialized := token_initialized state;
         tokens := alter (mergeToken props) (u_address props) (tokens state) |}
  | Token_invalidate =>
      {| token_initialized := token_initialized state;
         tokens := invalidateToken <$> tokens state |}
  | _ => state
  end.

(** Modelled from the spec: the transaction reducer of the store, absent
    from the sources.  [Transaction.update] hands the payload to the
    reduction the store was given; the other actions leave the list. *)
Definition transactionReducer (state : TransactionState TxReceipt)
    (action : Action Pool TxReceipt) : TransactionState TxReceipt :=
  match action with
  | Transaction_update props =>
      {| transactions := updateTransactions props (transactions state) |}
  | _ => state
  end.

(** Modelled from the spec: the wallet reducer of the store, absent from
    the sources; [Wallet.update] replaces the wallet. *)
Definition walletReducer (state : WalletState) (action : Action Pool TxReceipt) : WalletState :=
  match action with
  | Wallet_update wallet _ => {| wallet := wallet |}
  | _ => state
  end.

(** Modelled from the spec: [dispatch] of the store, which hands the action
    to every reducer. *)
Definition dispatch (action : Action Pool TxReceipt) (store : RootState Pool TxReceipt)
    : RootState Pool TxReceipt :=
  {| state_wallet := walletReducer (state_wallet store) action;
     state_token := tokenReducer (state_token store) action;
     state_transaction := transactionReducer (state_transaction store) action |}.

End Store.

(** ** Asynchronous tasks

    The body of an [async] function: it works on the store and either runs
    to its end or throws (a rejected promise included).  Whatever it
    dispatched before throwing stays in the store. *)

Inductive outcome (A : Type) :=
| Resolved (a : A)
| Rejected.
Arguments Resolved {A}.
Arguments Rejected {A}.

Definition Async (Pool TxReceipt A : Type) : Type :=
  RootState Pool TxReceipt → RootState Pool TxReceipt * outcome A.

Section Async.

Context {Pool TxReceipt : Type} `{!TransactionUpdate TxReceipt}.

#[global] Instance Async_ret : MRet (Async Pool TxReceipt) :=
  λ A a store, (store, Resolved a).

#[global] Instance Async_bind : MBind (Async Pool TxReceipt) :=
  λ A B f m store,
    match m store with
    | (store', Resolved a) => f a store'
    | (store', Rejected) => (store', Rejected)
    end.

(** [throw] *)
Definition throw {A} : Async Pool TxReceipt A := λ store, (store, Rejected).

(** [await] of a read that may be rejected. *)
Definition await {A} (read : option A) : Async Pool TxReceipt A :=
  match read with
  | Some a => mret a
  | None => throw
  end.

(** [x!.property]: reading a property of [undefined] throws. *)
Definition nonNull {A} (x : option A) : Async Pool TxReceipt A :=
  match x with
  | Some a => mret a
  | None => throw
  end.

(** [dispatch(action)] inside a task. *)
Definition dispatchA (action : Action Pool TxReceipt) : Async Pool TxReceipt unit :=
  λ store, (dispatch action store, Resolved tt).

(** Modelled from the spec: the task runner [useAsyncTask] of app/utils,
    absent from the sources.  It catches the failure of the task at the
    task boundary, so the caller goes on; the store is left as the task
    left it. *)
Definition runQueryToken (task : Async Pool TxReceipt unit)
    (store : RootState Pool TxReceipt) : RootState Pool TxReceipt :=
  (task store).1.

End Async.

(** ** The butler: code *)

Section AppButler.

Context {Pool TxReceipt : Type} `{!TransactionUpdate TxReceipt}.

(** [new BN(x)] for a string or [undefined]; the reading of the digits is
    the library's. *)
Variable BN_new : option string → BN.

(** [ZIL_HASH] of zilswap-sdk/lib/constants. *)
Variable ZIL_HASH : string.

Definition mapZilswapToken (zilswapToken : TokenDetails) : TokenInfo Pool :=
  {| initialized := false;
     isZil := false;
     dirty := false;
     loading := None;
     listPriority := None;
     address := td_address zilswapToken;
     decimals := td_decimals zilswapToken;
     symbol := Some (td_symbol zilswapToken);
     name := Some "";
     balance := 0;
     init_supply := 0;
     balances := ∅;
     pool := None |}.

Definition zilParamsToMap (params : list Value) : gmap string string :=
  foldl (λ output set, <[vname set := value set]> output) ∅ params.

(** The callback handed to [ZilswapConnector.registerObserver]. *)
Definition observer (tx : ObservedTx) (status : string) (receipt : option TxReceipt)
    (store : RootState Pool TxReceipt) : RootState Pool TxReceipt :=
  let store :=
    dispatch (Transaction_update
      {| hash := tx_hash tx; status := status; txReceipt := receipt |}) store in
  let transactions := transactions (state_transaction store) in
  match find (λ transaction, String.eqb (hash transaction) (tx_hash tx)) transactions with
  | Some _ => dispatch Token_invalidate store
  | None => store
  end.

(** The ZIL pseudo-token of the second effect. *)
Definition zilToken (wallet : ConnectedWallet) : TokenInfo Pool :=
  {| isZil := true;
     dirty := false;
     initialized := true;
     loading := None;
     listPriority := Some 0%Z;
     address := ZIL_HASH;
     decimals := 12%Z;
     balance := wallet_balance wallet;
     init_supply := 0;
     name := Some "Zilliqa";
     symbol := Some "ZIL";
     balances := {[ JS.toLowerCase (byte20 (addressInfo wallet)) := wallet_balance wallet ]};
     pool := None |}.

(** The second effect ("butler init"), run with the wallet state and the
    token state of the current render. *)
Definition initEffect (connector : Connector Pool) (walletState : WalletState)
    (tokenState : TokenState Pool) (store : RootState Pool TxReceipt)
    : RootState Pool TxReceipt :=
  if token_initialized tokenState then store
  else match wallet walletState with
       | None => store
       | Some wallet =>
           let zilswapTokens := getTokens connector in
           let tokens : gmap string (TokenInfo Pool) :=
             foldl (λ tokens token, <[address token := token]> tokens) ∅
                   (map mapZilswapToken zilswapTokens) in
           let tokens := <["zil" := zilToken wallet]> tokens in
           dispatch (Token_init tokens) store
       end.

(** [balances[address] = new BN(contractBalanceState[address])] for every
    key of the fetched table. *)
Definition convertBalances (contractBalanceState : gmap string string) : gmap string BN :=
  map_fold (λ address v balances, <[address := BN_new (Some v)]> balances) ∅
           contractBalanceState.

(** The [tokenInfo] object a contract-backed refresh builds from what it
    fetched. *)
Definition tokenInfo (contractInitParams : list Value)
    (contractBalanceState : gmap string string) (pool : option Pool)
    (wallet : ConnectedWallet) (token : TokenInfo Pool) : TokenUpdateProps Pool :=
  let contractInit := zilParamsToMap contractInitParams in
  let balances := convertBalances contractBalanceState in
  let balance := default 0%Z (balances !! JS.toLowerCase (byte20 (addressInfo wallet))) in
  {| u_initialized := Some true;
     u_dirty := Some false;
     u_loading := Some false;
     u_isZil := Some false;
     u_address := address token;
     u_decimals := Some (decimals token);
     u_init_supply := Some (BN_new (contractInit !! "init_supply"));
     u_symbol := Some (contractInit !! "symbol");
     u_name := Some (contractInit !! "name");
     u_pool := Some pool;
     u_balances := Some balances;
     u_balance := Some balance |}.

(** The patch the scheduler dispatches before it starts the task. *)
Definition loadingProps (key : string) : TokenUpdateProps Pool :=
  {| u_address := key;
     u_loading := Some true;
     u_dirty := Some false;
     u_initialized := Some true;
     u_isZil := None; u_decimals := None; u_symbol := None; u_name := None;
     u_balance := None; u_init_supply := None; u_balances := None; u_pool := None |}.

(** The patch of the ZIL pseudo-token after the wallet was read again. *)
Definition zilProps (key : string) (wallet : ConnectedWallet) : TokenUpdateProps Pool :=
  {| u_address := key;
     u_loading := Some false;
     u_balance := Some (wallet_balance wallet);
     u_balances :=
       Some {[ JS.toLowerCase (byte20 (addressInfo wallet)) := wallet_balance wallet ]};
     u_initialized := None; u_isZil := None; u_dirty := None; u_decimals := None;
     u_symbol := None; u_name := None; u_init_supply := None; u_pool := None |}.

(** The task handed to [runQueryToken] for the entry [key] of the token
    collection ([key] is the loop variable [address], [token] the record
    read under it); [walletState] and [token] are those of the render. *)
Definition queryTokenInfo (connector : Connector Pool) (walletState : WalletState)
    (key : string) (token : TokenInfo Pool) : Async Pool TxReceipt unit :=
  if isZil token then
    let privateKey := w ← wallet walletState; privateKey (addressInfo w) in
    if negb (JS.truthy privateKey) then mret tt
    else
      walletNow ← nonNull (wallet walletState);
      pk ← nonNull privateKey;
      result ← await (connectWalletPrivateKey connector pk (network walletNow));
      dispatchA (Wallet_update result pk) ;;
      wallet ← nonNull result;
      dispatchA (Token_update (zilProps key wallet))
  else
    contractInitParams ← await (getInit connector key);
    contractBalanceState ← await (getBalancesMap connector key);
    let pool := getPool connector (address token) in
    wallet ← nonNull (wallet walletState);
    dispatchA (Token_update
      (tokenInfo contractInitParams contractBalanceState pool wallet token)).

(** A task started by the scheduler and not yet run: the variables its
    closure holds. *)
Record RefreshTask := mkRefreshTask {
  task_key : string;
  task_token : TokenInfo Pool;
  task_walletState : WalletState;
}.

(** One turn of the loop of the third effect. *)
Definition schedulerStep (walletState : WalletState)
    (acc : RootState Pool TxReceipt * list RefreshTask) (entry : string * TokenInfo Pool)
    : RootState Pool TxReceipt * list RefreshTask :=
  let '(key, token) := entry in
  if initialized token && negb (dirty token) then acc
  else (dispatch (Token_update (loadingProps key)) acc.1,
        (acc.2 ++ [ {| task_key := key; task_token := token;
                       task_walletState := walletState |} ])%list).

(** The third effect: one pass over the token collection of the render.
    It gives the store after the synchronous loop and the tasks it
    started, none of which has run beyond its first [await]. *)
Definition scheduler (walletState : WalletState) (tokenState : TokenState Pool)
    (store : RootState Pool TxReceipt) : RootState Pool TxReceipt * list RefreshTask :=
  foldl (schedulerStep walletState) (store, []) (map_to_list (tokens tokenState)).

(** A started task runs to its end under the task runner. *)
Definition settle (connector : Connector Pool) (store : RootState Pool TxReceipt)
    (task : RefreshTask) : RootState Pool TxReceipt :=
  runQueryToken
    (queryTokenInfo connector (task_walletState task) (task_key task) (task_token task))
    store.

End AppButler.

(** ** Auxiliary definitions for the statements *)

(** A refresh whose fetch fails: for a contract-backed token one of the two
    reads of the contract is rejected; for the ZIL pseudo-token there is a
    private key and the reconnection of the wallet is rejected. *)
Definition fetchFails {Pool : Type} (connector : Connector Pool) (walletState : WalletState)
    (key : string) (token : TokenInfo Pool) : bool :=
  if isZil token then
    match wallet walletState with
    | Some w =>
        match privateKey (addressInfo w) with
        | Some pk =>
            JS.truthy (Some pk)
            && bool_decide (connectWalletPrivateKey connector pk (network w) = None)
        | None => false
        end
    | None => false
    end
  else
    bool_decide (getInit connector key = None)
    || bool_decide (getBalancesMap connector key = None).

(** An entry of the token collection that the scheduler does not skip. *)
Definition isStale {Pool : Type} (entry : string * TokenInfo Pool) : bool :=
  negb (initialized entry.2 && negb (dirty entry.2)).

(** The task the scheduler starts for an entry. *)
Definition startTask {Pool : Type} (walletState : WalletState)
    (entry : string * TokenInfo Pool) : @RefreshTask Pool :=
  {| task_key := entry.1; task_token := entry.2; task_walletState := walletState |}.

(** The dispatch the scheduler makes for an entry before it starts the
    task. *)
Definition flipEntry {Pool TxReceipt : Type} `{!TransactionUpdate TxReceipt}
    (store : RootState Pool TxReceipt)
    (entry : string * TokenInfo Pool) : RootState Pool TxReceipt :=
  dispatch (Token_update (loadingProps entry.1)) store.

(** The tasks among [tasks] that were started for the entry [key]. *)
Definition tasksFor {Pool : Type} (key : string) (tasks : list (@RefreshTask Pool))
    : list (@RefreshTask Pool) :=
  List.filter (λ task, String.eqb (task_key task) key) tasks.

(** The value of a string of decimal digits, most significant digit first. *)
Definition decimalValue (s : string) : Z :=
  foldl (λ acc c, (10 * acc + (Z.of_N (N_of_ascii c) - 48))%Z) 0%Z (list_ascii_of_string s).

(** [new BN(x)] as the examples use it: zero for [undefined], the decimal
    value of a string of digits. *)
Definition BN_decimal (x : option string) : BN :=
  match x with
  | Some s => decimalValue s
  | None => 0%Z
  end.

(** The test the observer makes on the list of transactions: whether a
    record with the hash is there. *)
Definition isTracked {TxReceipt : Type} (h : string) (l : list (Transaction TxReceipt))
    : bool :=
  match find (λ transaction, String.eqb (hash transaction) h) l with
  | Some _ => true
  | None => false
  end.

(** A reduction of [Transaction.update] that updates in place: the record
    with the hash of the payload takes the payload, and a payload for a hash
    that is not in the list leaves the list as it is. *)
Fixpoint updateTracked {TxReceipt : Type} (props : Transaction TxReceipt)
    (l : list (Transaction TxReceipt)) : list (Transaction TxReceipt) :=
  match l with
  | [] => []
  | transaction :: l' =>
      if String.eqb (hash transaction) (hash props) then props :: l'
      else transaction :: updateTracked props l'
  end.

(** Concrete data for the examples below. *)
Module Example.

(** The store of the examples updates transactions in place. *)
#[export] Instance exampleUpdate : TransactionUpdate unit := updateTracked.

Definition ZIL_HASH : string := "0x0000000000000000000000000000000000000000".

Definition walletAAA : ConnectedWallet :=
  {| addressInfo := {| byte20 := "0xAAA"; bech32 := "zil1aaa"; privateKey := Some "key" |};
     wallet_balance := 500;
     network := "TestNet" |}.

Definition walletABC : ConnectedWallet :=
  {| addressInfo := {| byte20 := "0xABC"; bech32 := "zil1abc"; privateKey := Some "key" |};
     wallet_balance := 7;
     network := "TestNet" |}.

Definition initParams : list Value :=
  [ {| vname := "name"; vtype := "String"; value := "Token One" |};
    {| vname := "symbol"; vtype := "String"; value := "ONE" |};
    {| vname := "init_supply"; vtype := "Uint128"; value := "1000" |} ].

(** Two known tokens; every read of the chain succeeds. *)
Definition connector : Connector unit :=
  {| getTokens := [ {| td_address := "0xt1"; td_decimals := 6; td_symbol := "ONE" |};
                    {| td_address := "0xt2"; td_decimals := 8; td_symbol := "TWO" |} ];
     getPool := λ _, None;
     getInit := λ _, Some initParams;
     getBalancesMap := λ _, Some {[ "0xaaa" := "42" ]};
     connectWalletPrivateKey := λ _ _, Some (Some walletAAA) |}.

(** The same connector with every read of the chain rejected. *)
Definition offline : Connector unit :=
  {| getTokens := getTokens connector;
     getPool := λ _, None;
     getInit := λ _, None;
     getBalancesMap := λ _, None;
     connectWalletPrivateKey := λ _ _, None |}.

(** A store with a connected wallet and nothing else. *)
Definition emptyStore : RootState unit unit :=
  {| state_wallet := {| wallet := Some walletAAA |};
     state_token := {| token_initialized := false; tokens := ∅ |};
     state_transaction := {| transactions := [] |} |}.

(** The store after the bootstrap. *)
Definition seededStore : RootState unit unit :=
  initEffect ZIL_HASH connector (state_wallet emptyStore) (state_token emptyStore) emptyStore.

Definition tokenOne : TokenInfo unit :=
  mapZilswapToken {| td_address := "0xt1"; td_decimals := 6; td_symbol := "ONE" |}.

(** The record of the first token after one refresh against [connector]. *)
Definition refreshedOne : TokenInfo unit :=
  mergeToken
    (tokenInfo BN_decimal initParams {[ "0xaaa" := "42" ]} None walletAAA tokenOne)
    (mergeToken (loadingProps "0xt1") tokenOne).

(** A wallet whose address is that of [walletAAA] in another letter case. *)
Definition walletAaA : ConnectedWallet :=
  {| addressInfo := {| byte20 := "0xAaA"; bech32 := "zil1aaa"; privateKey := None |};
     wallet_balance := 500;
     network := "TestNet" |}.

(** The ZIL pseudo-token of [walletAAA]. *)
Definition zilRecord : TokenInfo unit := zilToken ZIL_HASH walletAAA.

Definition tokenTwo : TokenInfo unit :=
  mapZilswapToken {| td_address := "0xt2"; td_decimals := 8; td_symbol := "TWO" |}.

(** No wallet connected. *)
Definition noWallet : WalletState := {| wallet := None |}.

(** The wallet after a reconnection: the same address, another balance. *)
Definition walletLater : ConnectedWallet :=
  {| addressInfo := {| byte20 := "0xAAA"; bech32 := "zil1aaa"; privateKey := Some "key" |};
     wallet_balance := 900;
     network := "TestNet" |}.

(** [connector] with a reconnection that gives [walletLater]. *)
Definition reconnecting : Connector unit :=
  {| getTokens := getTokens connector;
     getPool := λ _, None;
     getInit := λ _, Some initParams;
     getBalancesMap := λ _, Some {[ "0xaaa" := "42" ]};
     connectWalletPrivateKey := λ _ _, Some (Some walletLater) |}.

(** [connector] with a reconnection that resolves without a wallet. *)
Definition reconnectEmpty : Connector unit :=
  {| getTokens := getTokens connector;
     getPool := λ _, None;
     getInit := λ _, Some initParams;
     getBalancesMap := λ _, Some {[ "0xaaa" := "42" ]};
     connectWalletPrivateKey := λ _ _, Some None |}.

(** A store whose collection holds the ZIL pseudo-token alone. *)
Definition zilOnlyStore : RootState unit unit :=
  {| state_wallet := {| wallet := Some walletAAA |};
     state_token := {| token_initialized := true; tokens := {[ "zil" := zilRecord ]} |};
     state_transaction := {| transactions := [] |} |}.

(** The store after the bootstrap, tracking one pending transaction. *)
Definition trackingStore : RootState unit unit :=
  {| state_wallet := state_wallet seededStore;
     state_token := state_token seededStore;
     state_transaction :=
       {| transactions := [ {| hash := "0xh1"; status := "pending"; txReceipt := None |} ] |} |}.

(** [trackingStore] after an event for the tracked transaction. *)
Definition invalidatedStore : RootState unit unit :=
  observer {| tx_hash := "0xh1"; deadline := 0 |} "confirmed" None trackingStore.

(** Init parameters of a contract that names neither its symbol nor its
    supply. *)
Definition ownerOnly : list Value :=
  [ {| vname := "owner"; vtype := "ByStr20"; value := "0xaaa" |} ].

End Example.

End Butler.

(** * Properties of the preference reducer *)

Module PreferenceSpec.
Import Preference.

Section Spec.

Variables TYPES_INIT TYPES_UPDATE : string.
Variable prefersDarkMode : bool.
Variable savedThemePreference : option string.

Local Abbreviation reducer :=
  (Preference.reducer TYPES_INIT TYPES_UPDATE prefersDarkMode savedThemePreference).

Local Arguments JS.includes : simpl never.

Lemma includes_VALID_THEMES (t : string) :
  JS.includes VALID_THEMES t = true ↔ t = "dark" ∨ t = "light".
Proof.
  unfold JS.includes, VALID_THEMES; cbn [existsb].
  rewrite !orb_true_iff, !String.eqb_eq. intuition discriminate.
Qed.

Lemma checkToSave_cases (current : option string) (p : PreferenceStateUpdateProps)
    (ls : Storage) :
  checkToSaveThemePreference current p ls = ls
  ∨ ∃ t, payload_theme p = Present (Some t) ∧ current ≠ Some t
         ∧ (t = "dark" ∨ t = "light")
         ∧ checkToSaveThemePreference current p ls = <[LOCAL_STORAGE_KEY_THEME := t]> ls.
Proof.
  unfold checkToSaveThemePreference, read_theme.
  destruct (payload_theme p) as [|[t|]] eqn:Hp; simpl; auto.
  destruct (negb (String.eqb t "")); simpl; auto.
  destruct (differs t current) eqn:Hd; simpl; auto.
  destruct (JS.includes VALID_THEMES t) eqn:Hv; auto.
  right. exists t. split; [done|]. split; [|split; [|done]].
  - intros ->. simpl in Hd. rewrite String.eqb_refl in Hd. discriminate.
  - by apply includes_VALID_THEMES.
Qed.

(** C9. An action whose type is neither INIT nor UPDATE leaves the whole
    preference state as it is and writes nothing to localStorage. *)
Theorem reducer_other_action (S : PreferenceState) (a : Action) (ls : Storage) :
  type a ≠ TYPES_INIT →
  type a ≠ TYPES_UPDATE →
  reducer (Some S) a ls = (S, ls).
Proof.
  intros Hi Hu. unfold Preference.reducer.
  apply String.eqb_neq in Hi, Hu. by rewrite Hi, Hu.
Qed.

(** C10. On an UPDATE action the payload is merged into the state whatever
    it holds; localStorage is written only for a payload theme that
    differs from the current theme and is "dark" or "light", and then with
    that theme; a payload theme outside these two ends up in the state
    while localStorage stays as it was. *)
Theorem reducer_update_theme (S : PreferenceState) (a : Action) (ls : Storage) :
  TYPES_INIT ≠ TYPES_UPDATE →
  type a = TYPES_UPDATE →
  (reducer (Some S) a ls).1 = spread S (payload a)
  ∧ ((reducer (Some S) a ls).2 = ls
     ∨ ∃ t, payload_theme (payload a) = Present (Some t)
            ∧ theme S ≠ Some t
            ∧ (t = "dark" ∨ t = "light")
            ∧ (reducer (Some S) a ls).2 = <[LOCAL_STORAGE_KEY_THEME := t]> ls)
  ∧ (∀ t, payload_theme (payload a) = Present (Some t) →
          theme S ≠ Some t → (t = "dark" ∨ t = "light") →
          (reducer (Some S) a ls).2 = <[LOCAL_STORAGE_KEY_THEME := t]> ls)
  ∧ (∀ t, payload_theme (payload a) = Present (Some t) →
          t ≠ "dark" → t ≠ "light" →
          reducer (Some S) a ls = ({| theme := Some t |}, ls)).
Proof.
  intros Hne Ha. unfold Preference.reducer. simpl.
  assert (String.eqb (type a) TYPES_INIT = false) as ->.
  { apply String.eqb_neq. congruence. }
  assert (String.eqb (type a) TYPES_UPDATE = true) as -> by by apply String.eqb_eq.
  simpl. split; [done|]. split; [apply checkToSave_cases|]. split.
  - intros t Hp Hcur Hv.
    unfold checkToSaveThemePreference, read_theme. rewrite Hp. simpl.
    assert (String.eqb t "" = false) as ->.
    { apply String.eqb_neq. destruct Hv as [-> | ->]; discriminate. }
    simpl.
    assert (differs t (theme S) = true) as ->.
    { unfold differs. destruct (theme S) as [c|]; [|done].
      apply negb_true_iff, String.eqb_neq. congruence. }
    apply includes_VALID_THEMES in Hv. by rewrite Hv.
  - intros t Hp Hd Hl.
    unfold spread, checkToSaveThemePreference, read_theme. rewrite Hp. simpl.
    assert (JS.includes VALID_THEMES t = false) as Hv.
    { destruct (JS.includes VALID_THEMES t) eqn:E; [|done].
      apply includes_VALID_THEMES in E. tauto. }
    rewrite Hv, andb_false_r. by destruct (negb (String.eqb t "")).
Qed.

End Spec.

(** An action of another reducer passes through. *)
Lemma reducer_other_action_witness :
  reducer "PREFERENCE_INIT" "PREFERENCE_UPDATE" true None
    (Some {| theme := Some "dark" |})
    {| type := "TOKEN_UPDATE"; payload := {| payload_theme := Absent |} |} ∅
  = ({| theme := Some "dark" |}, ∅).
Proof.
  apply (reducer_other_action "PREFERENCE_INIT" "PREFERENCE_UPDATE" true None);
    simpl; discriminate.
Defined.

(** The theme "blue" reaches the state and is not saved. *)
Lemma reducer_update_theme_witness :
  reducer "PREFERENCE_INIT" "PREFERENCE_UPDATE" true None
    (Some {| theme := Some "dark" |})
    {| type := "PREFERENCE_UPDATE";
       payload := {| payload_theme := Present (Some "blue") |} |} ∅
  = ({| theme := Some "blue" |}, ∅).
Proof.
  apply (reducer_update_theme "PREFERENCE_INIT" "PREFERENCE_UPDATE" true None
           {| theme := Some "dark" |}
           {| type := "PREFERENCE_UPDATE";
              payload := {| payload_theme := Present (Some "blue") |} |} ∅);
    simpl; (reflexivity || discriminate).
Defined.

End PreferenceSpec.

(** * Properties of the butler *)

Module ButlerSpec.
Import Butler.

Section Spec.

Context {Pool TxReceipt : Type} `{!TransactionUpdate TxReceipt}.
Variable BN_new : option string → BN.
Variable ZIL_HASH : string.

Implicit Types (token current : TokenInfo Pool) (store : RootState Pool TxReceipt).
Implicit Types (connector : Connector Pool) (walletState : WalletState).
Implicit Types (key : string) (params : list Value).

(** ** The helpers *)

(** C7. [mapZilswapToken] gives, for every descriptor, a record that is
    not initialized, not dirty, not the native currency, with balance and
    supply zero, no balances per owner, the empty name, and the address,
    decimals and symbol of the descriptor. *)
Theorem mapZilswapToken_defaults (D : TokenDetails) :
  let token : TokenInfo Pool := mapZilswapToken D in
  initialized token = false ∧ dirty token = false ∧ isZil token = false
  ∧ balance token = 0%Z ∧ init_supply token = 0%Z
  ∧ balances token = ∅ ∧ name token = Some ""
  ∧ address token = td_address D ∧ decimals token = td_decimals D
  ∧ symbol token = Some (td_symbol D).
Proof. by repeat split. Qed.

Lemma zilParamsToMap_snoc params (set : Value) :
  zilParamsToMap (params ++ [set])%list = <[vname set := value set]> (zilParamsToMap params).
Proof. unfold zilParamsToMap. by rewrite foldl_app. Qed.

Lemma zilParamsToMap_other (n : string) (after : list Value) (output : gmap string string) :
  Forall (λ s, vname s ≠ n) after →
  foldl (λ output set, <[vname set := value set]> output) output after !! n = output !! n.
Proof.
  revert output. induction after as [|s after IH]; intros output Hall; [done|].
  inversion Hall as [|? ? Hs Hafter]; subst. simpl.
  rewrite IH by done. by rewrite lookup_insert_ne.
Qed.

(** C6. [zilParamsToMap] gives the empty mapping for the empty sequence,
    and under each name the value of the last entry with that name. *)
Theorem zilParamsToMap_last_wins (before after : list Value) (set : Value) :
  Forall (λ s, vname s ≠ vname set) after →
  zilParamsToMap [] = ∅
  ∧ zilParamsToMap (before ++ set :: after)%list !! vname set = Some (value set).
Proof.
  intros Hafter. split; [done|].
  unfold zilParamsToMap. rewrite foldl_app. simpl.
  rewrite zilParamsToMap_other by done. apply lookup_insert_eq.
Qed.

(** A name that no entry carries is not a key of the result. *)
Lemma zilParamsToMap_absent params (n : string) :
  Forall (λ s, vname s ≠ n) params → zilParamsToMap params !! n = None.
Proof. intros H. unfold zilParamsToMap. by rewrite zilParamsToMap_other. Qed.

(** ** The contract-backed refresh *)

Lemma convertBalances_fmap (contractBalanceState : gmap string string) :
  convertBalances BN_new contractBalanceState
  = (λ v, BN_new (Some v)) <$> contractBalanceState.
Proof.
  unfold convertBalances.
  apply (map_fold_weak_ind (λ r m, r = (λ v, BN_new (Some v)) <$> m)).
  - by rewrite fmap_empty.
  - intros i x m r _ ->. by rewrite fmap_insert.
Qed.

Lemma lower_ascii_idemp (c : ascii) : JS.lower_ascii (JS.lower_ascii c) = JS.lower_ascii c.
Proof. by destruct c as [[] [] [] [] [] [] [] []]. Qed.

Lemma toLowerCase_idemp (s : string) : JS.toLowerCase (JS.toLowerCase s) = JS.toLowerCase s.
Proof. induction s as [|c s IH]; simpl; [done|]. by rewrite lower_ascii_idemp, IH. Qed.

Lemma balance_lookup params (contractBalanceState : gmap string string)
    (pool : option Pool) (wallet : ConnectedWallet) token :
  u_balance (tokenInfo BN_new params contractBalanceState pool wallet token)
  = Some (match contractBalanceState !! JS.toLowerCase (byte20 (addressInfo wallet)) with
          | Some v => BN_new (Some v)
          | None => 0%Z
          end).
Proof.
  unfold tokenInfo. simpl. rewrite convertBalances_fmap, lookup_fmap.
  by destruct (contractBalanceState !! _).
Qed.

(** C3 (as the code has it). The balance of a contract-backed refresh is
    the entry of the fetched table under the lower-cased wallet address,
    zero without such an entry.  Only the wallet address is lower-cased,
    the keys of the table are taken as they were fetched: wallet addresses
    that differ in letter case only read the same entry, and an entry
    under a key that is not in lower case has no effect on the balance. *)
Theorem tokenInfo_balance params (contractBalanceState : gmap string string)
    (pool : option Pool) (wallet wallet' : ConnectedWallet) token (k v : string) :
  JS.toLowerCase (byte20 (addressInfo wallet'))
    = JS.toLowerCase (byte20 (addressInfo wallet)) →
  k ≠ JS.toLowerCase k →
  u_balance (tokenInfo BN_new params contractBalanceState pool wallet token)
    = Some (match contractBalanceState !! JS.toLowerCase (byte20 (addressInfo wallet)) with
            | Some v => BN_new (Some v)
            | None => 0%Z
            end)
  ∧ u_balance (tokenInfo BN_new params contractBalanceState pool wallet' token)
    = u_balance (tokenInfo BN_new params contractBalanceState pool wallet token)
  ∧ u_balance (tokenInfo BN_new params (<[k := v]> contractBalanceState) pool wallet token)
    = u_balance (tokenInfo BN_new params contractBalanceState pool wallet token).
Proof.
  intros Hcase Hk. rewrite !balance_lookup. split; [done|].
  split; [by rewrite Hcase|].
  rewrite lookup_insert_ne; [done|].
  intros ->. apply Hk. by rewrite toLowerCase_idemp.
Qed.

(** ** Tasks *)

Ltac async := unfold mbind, Async_bind, await, nonNull, throw, mret, Async_ret, dispatchA.

Lemma mergeToken_idemp (props : TokenUpdateProps Pool) token :
  mergeToken props (mergeToken props token) = mergeToken props token.
Proof.
  unfold mergeToken. simpl.
  destruct props as [a [?|] [?|] [?|] [?|] [?|] [?|] [?|] [?|] [?|] [?|] [?|]]; reflexivity.
Qed.

Lemma dispatch_Token_update_idemp (props : TokenUpdateProps Pool) store :
  dispatch (Token_update props) (dispatch (Token_update props) store)
  = dispatch (Token_update props) store.
Proof.
  unfold dispatch. simpl. do 2 f_equal.
  rewrite alter_alter_eq. apply alter_ext. intros t _. apply mergeToken_idemp.
Qed.

(** C8. A contract-backed refresh reads of the token only its address and
    decimals: run again for the record as any earlier run left it, against
    the same connector and wallet, it builds the same [tokenInfo], ends in
    the same way and leaves the store as the first run left it. *)
Theorem queryTokenInfo_deterministic connector walletState key token token' store :
  isZil token = false →
  isZil token' = false →
  address token' = address token →
  decimals token' = decimals token →
  let first := queryTokenInfo BN_new connector walletState key token store in
  let second := queryTokenInfo BN_new connector walletState key token' first.1 in
  (∀ params table pool wallet,
     tokenInfo BN_new params table pool wallet token'
     = tokenInfo BN_new params table pool wallet token)
  ∧ second = first.
Proof.
  intros Hz Hz' Ha Hd. simpl.
  assert (∀ params table pool wallet,
     tokenInfo BN_new params table pool wallet token'
     = tokenInfo BN_new params table pool wallet token) as Hsame.
  { intros. unfold tokenInfo. by rewrite Ha, Hd. }
  split; [done|].
  unfold queryTokenInfo. rewrite Hz, Hz', Ha. async.
  destruct (getInit connector key) as [params|]; [|done].
  destruct (getBalancesMap connector key) as [table|]; [|done].
  destruct (wallet walletState) as [w|]; [|done].
  rewrite Hsame. simpl. by rewrite dispatch_Token_update_idemp.
Qed.

(** ** The scheduler *)

Lemma schedulerStep_fold walletState (l : list (string * TokenInfo Pool))
    (acc : RootState Pool TxReceipt * list (@RefreshTask Pool)) :
  foldl (schedulerStep walletState) acc l
  = (foldl flipEntry acc.1 (List.filter isStale l),
     (acc.2 ++ map (startTask walletState) (List.filter isStale l))%list).
Proof.
  revert acc. induction l as [|[k t] l IH]; intros [s ts]; simpl.
  - by rewrite app_nil_r.
  - change (isStale (k, t)) with (negb (initialized t && negb (dirty t))).
    destruct (initialized t && negb (dirty t)); simpl; rewrite IH; simpl; [done|].
    by rewrite <- app_assoc.
Qed.

Lemma flip_lookup (es : list (string * TokenInfo Pool)) store key :
  tokens (state_token (foldl flipEntry store es)) !! key
  = if bool_decide (key ∈ es.*1)
    then mergeToken (loadingProps key) <$> tokens (state_token store) !! key
    else tokens (state_token store) !! key.
Proof.
  revert store. induction es as [|[k t] es IH]; intros store; [done|].
  rewrite fmap_cons. cbn [foldl fst].
  rewrite IH. unfold flipEntry. cbn [dispatch state_token tokenReducer tokens u_address loadingProps fst].
  rewrite lookup_alter.
  destruct (decide (k = key)) as [->|Hne].
  - rewrite (bool_decide_eq_true_2 (key ∈ key :: es.*1)) by apply list_elem_of_here.
    case_bool_decide; [|done].
    rewrite <- option_fmap_compose. apply option_fmap_ext.
    intros x. apply mergeToken_idemp.
  - assert (bool_decide (key ∈ k :: es.*1) = bool_decide (key ∈ es.*1)) as ->; [|done].
    apply bool_decide_ext. rewrite elem_of_cons. intuition congruence.
Qed.

Lemma tasksFor_absent walletState (l : list (string * TokenInfo Pool)) key :
  key ∉ l.*1 → tasksFor key (map (startTask walletState) l) = [].
Proof.
  induction l as [|[k t] l IH]; simpl; [done|].
  rewrite not_elem_of_cons. intros [Hne Hl].
  assert (String.eqb k key = false) as -> by (apply String.eqb_neq; congruence).
  by apply IH.
Qed.

Lemma filter_fst_subseteq (l : list (string * TokenInfo Pool)) key :
  key ∈ (List.filter isStale l).*1 → key ∈ l.*1.
Proof.
  rewrite !list_elem_of_fmap. intros [e [-> He]]. exists e. split; [done|].
  apply list_elem_of_In in He. apply filter_In in He as [He _].
  by apply list_elem_of_In.
Qed.

Lemma tasksFor_entry walletState (l : list (string * TokenInfo Pool)) key token :
  NoDup l.*1 → (key, token) ∈ l →
  tasksFor key (map (startTask walletState) (List.filter isStale l))
  = if isStale (key, token) then [startTask walletState (key, token)] else [].
Proof.
  induction l as [|[k t] l IH]; simpl.
  - intros _ H. by apply elem_of_nil in H.
  - rewrite NoDup_cons. intros [Hk Hl]. rewrite elem_of_cons. intros [Heq|Hin].
    + inversion Heq; subst k t.
      assert (tasksFor key (map (startTask walletState) (List.filter isStale l)) = []) as Hnone.
      { apply tasksFor_absent. intros H. by apply Hk, filter_fst_subseteq. }
      destruct (isStale (key, token)); simpl; [|done].
      unfold tasksFor in *. simpl. rewrite String.eqb_refl. by rewrite Hnone.
    + assert (k ≠ key) as Hne.
      { intros ->. apply Hk. apply list_elem_of_fmap. by exists (key, token). }
      rewrite <- (IH Hl Hin).
      destruct (isStale (k, t)); simpl; [|done].
      unfold tasksFor. simpl.
      by assert (String.eqb k key = false) as -> by by apply String.eqb_neq.
Qed.

Lemma scheduler_store walletState (tokenState : TokenState Pool) store key token :
  tokens tokenState !! key = Some token →
  tokens (state_token (scheduler walletState tokenState store).1) !! key
  = if isStale (key, token)
    then mergeToken (loadingProps key) <$> tokens (state_token store) !! key
    else tokens (state_token store) !! key.
Proof.
  intros Hkey. unfold scheduler. rewrite schedulerStep_fold. simpl.
  rewrite flip_lookup.
  apply elem_of_map_to_list in Hkey.
  destruct (isStale (key, token)) eqn:Hs.
  - rewrite bool_decide_eq_true_2; [done|].
    apply list_elem_of_fmap. exists (key, token). split; [done|].
    apply list_elem_of_In, filter_In. split; [by apply list_elem_of_In|done].
  - rewrite bool_decide_eq_false_2; [done|].
    rewrite list_elem_of_fmap. intros [[k t] [Hk He]]. simpl in Hk. subst k.
    apply list_elem_of_In, filter_In in He as [He Ht].
    apply list_elem_of_In, elem_of_map_to_list in He.
    apply elem_of_map_to_list in Hkey. congruence.
Qed.

Lemma scheduler_tasks walletState (tokenState : TokenState Pool) store key token :
  tokens tokenState !! key = Some token →
  tasksFor key (scheduler walletState tokenState store).2
  = if isStale (key, token) then [startTask walletState (key, token)] else [].
Proof.
  intros Hkey. unfold scheduler. rewrite schedulerStep_fold. simpl.
  apply tasksFor_entry; [apply NoDup_fst_map_to_list|by apply elem_of_map_to_list].
Qed.

(** C2. One pass of the scheduler over the token collection: an entry that
    is initialized and not dirty is skipped (its record stays, no task is
    started for it); for any other entry the record in the store gets
    loading=true, dirty=false, initialized=true within the pass, and
    exactly one task is started for it, which has not run yet. *)
Theorem scheduler_pass walletState (tokenState : TokenState Pool) store key token current :
  tokens tokenState !! key = Some token →
  tokens (state_token store) !! key = Some current →
  let pass := scheduler walletState tokenState store in
  if initialized token && negb (dirty token)
  then tokens (state_token pass.1) !! key = Some current
       ∧ tasksFor key pass.2 = []
  else (∃ flipped, tokens (state_token pass.1) !! key = Some flipped
          ∧ flipped = mergeToken (loadingProps key) current
          ∧ loading flipped = Some true
          ∧ dirty flipped = false
          ∧ initialized flipped = true)
       ∧ tasksFor key pass.2
         = [ {| task_key := key; task_token := token; task_walletState := walletState |} ].
Proof.
  intros Hsnap Hcur pass. subst pass.
  rewrite (scheduler_store _ _ _ _ _ Hsnap), (scheduler_tasks _ _ _ _ _ Hsnap).
  unfold isStale. simpl.
  destruct (initialized token && negb (dirty token)); simpl; [done|].
  split; [|done]. rewrite Hcur. simpl. eexists. by repeat split.
Qed.

(** ** A refresh that fails *)

Lemma settle_fetchFails connector walletState key token store :
  fetchFails connector walletState key token = true →
  settle BN_new connector store
    {| task_key := key; task_token := token; task_walletState := walletState |}
  = store.
Proof.
  unfold fetchFails, settle, runQueryToken, queryTokenInfo. simpl.
  destruct (isZil token).
  - destruct (wallet walletState) as [w|]; [|done]. simpl.
    destruct (privateKey (addressInfo w)) as [pk|]; [|done].
    rewrite andb_true_iff, bool_decide_eq_true. intros [Htruthy Hnone].
    change (negb (String.eqb pk "")) with (JS.truthy (Some pk)) in Htruthy.
    rewrite Htruthy. async. simpl. by rewrite Hnone.
  - rewrite orb_true_iff, !bool_decide_eq_true. async.
    intros [-> | Hnone]; [done|].
    destruct (getInit connector key); [|done]. by rewrite Hnone.
Qed.

(** C5 (as the code has it). A refresh whose fetch fails ends at the task
    boundary and dispatches nothing: the store stays as it was.  The
    record keeps the flags the scheduler gave it when it started the task,
    loading=true, dirty=false and initialized=true, and a later pass of
    the scheduler starts no task for it. *)
Theorem failed_refresh_keeps_flags connector walletState (tokenState : TokenState Pool)
    store key token current :
  tokens tokenState !! key = Some token →
  initialized token && negb (dirty token) = false →
  tokens (state_token store) !! key = Some current →
  fetchFails connector walletState key token = true →
  let pass := scheduler walletState tokenState store in
  let task :=
    {| task_key := key; task_token := token; task_walletState := walletState |} in
  let after := settle BN_new connector pass.1 task in
  tasksFor key pass.2 = [task]
  ∧ after = pass.1
  ∧ (∃ failed, tokens (state_token after) !! key = Some failed
       ∧ loading failed = Some true
       ∧ dirty failed = false
       ∧ initialized failed = true)
  ∧ tasksFor key (scheduler walletState (state_token after) after).2 = [].
Proof.
  intros Hsnap Hstale Hcur Hfail. cbn zeta.
  rewrite (settle_fetchFails _ _ _ _ _ Hfail).
  pose proof (scheduler_store walletState tokenState store key token Hsnap) as Hstore.
  pose proof (scheduler_tasks walletState tokenState store key token Hsnap) as Htasks.
  unfold isStale in Hstore, Htasks. simpl in Hstore, Htasks.
  rewrite Hstale in Hstore, Htasks. simpl in Hstore, Htasks.
  rewrite Hcur in Hstore. simpl in Hstore.
  split; [done|]. split; [done|]. split.
  - eexists. split; [exact Hstore|]. by repeat split.
  - by rewrite (scheduler_tasks _ _ _ _ _ Hstore).
Qed.

(** ** The transaction observer *)

Lemma observer_cases (tx : ObservedTx) (status : string) (receipt : option TxReceipt) store :
  let props := {| hash := tx_hash tx; status := status; txReceipt := receipt |} in
  let updated := dispatch (Transaction_update props) store in
  observer tx status receipt store
  = if isTracked (tx_hash tx) (updateTransactions props (transactions (state_transaction store)))
    then dispatch Token_invalidate updated
    else updated.
Proof.
  cbn zeta. unfold observer, isTracked.
  cbn [dispatch state_transaction transactionReducer transactions].
  by destruct (find _ _).
Qed.



(** ** The bootstrap *)

Lemma mapped_tokens_not_zil (l : list TokenDetails) (acc : gmap string (TokenInfo Pool)) :
  map_Forall (λ _ token, isZil token = false) acc →
  map_Forall (λ _ token, isZil token = false)
    (foldl (λ tokens token, <[address token := token]> tokens) acc
           (map mapZilswapToken l)).
Proof.
  revert acc. induction l as [|D l IH]; intros acc Hacc; simpl; [done|].
  apply IH. by apply map_Forall_insert_2.
Qed.

(** C4. After the bootstrap has run for a connected wallet with address
    "0xAAA" and balance 500, the token collection has a native-currency
    entry, under the key "zil" and nowhere else; it is initialized, its
    balance is 500 and its balances per owner hold 500 under "0xaaa". *)
Theorem initEffect_native_currency connector walletState (tokenState : TokenState Pool)
    store (w : ConnectedWallet) :
  token_initialized tokenState = false →
  wallet walletState = Some w →
  byte20 (addressInfo w) = "0xAAA" →
  wallet_balance w = 500%Z →
  let collection :=
    tokens (state_token (initEffect ZIL_HASH connector walletState tokenState store)) in
  (∃ zil, collection !! "zil" = Some zil
      ∧ isZil zil = true
      ∧ initialized zil = true
      ∧ balance zil = 500%Z
      ∧ balances zil !! "0xaaa" = Some 500%Z)
  ∧ map_Forall (λ key token, isZil token = true → key = "zil") collection.
Proof.
  intros Hinit Hw Haddr Hbal. cbn zeta. unfold initEffect. rewrite Hinit, Hw. simpl.
  split.
  - eexists. split; [apply lookup_insert_eq|]. unfold zilToken. simpl.
    rewrite Haddr, Hbal. by repeat split.
  - intros k t. rewrite lookup_insert. case_decide; [done|].
    intros Hk Hz.
    pose proof (mapped_tokens_not_zil (getTokens connector) ∅ (map_Forall_empty _)) as Hall.
    specialize (Hall k t Hk). simpl in Hall. congruence.
Qed.

End Spec.

(** ** Examples *)

Import Example.

Lemma updateTracked_keeps {R : Type} (props : Transaction R) (l : list (Transaction R))
    (h : string) :
  isTracked h l = true → isTracked h (updateTracked props l) = true.
Proof.
  unfold isTracked. induction l as [|t l IH]; simpl; [done|].
  destruct (String.eqb (hash t) (hash props)) eqn:Hp; simpl.
  - destruct (String.eqb (hash t) h) eqn:Hh.
    + apply String.eqb_eq in Hp, Hh.
      assert (String.eqb (hash props) h = true) as -> by (apply String.eqb_eq; congruence).
      done.
    + destruct (String.eqb (hash props) h); [done|]. exact id.
  - destruct (String.eqb (hash t) h); [done|]. exact IH.
Qed.



(** The scheduler on the store after the bootstrap: the first token is not
    initialized, so it is flipped and one task is started for it. *)
Lemma scheduler_pass_witness :
  let pass := scheduler (state_wallet seededStore) (state_token seededStore) seededStore in
  (∃ flipped, tokens (state_token pass.1) !! "0xt1" = Some flipped
     ∧ flipped = mergeToken (loadingProps "0xt1") tokenOne
     ∧ loading flipped = Some true
     ∧ dirty flipped = false
     ∧ initialized flipped = true)
  ∧ tasksFor "0xt1" pass.2
    = [ {| task_key := "0xt1"; task_token := tokenOne;
           task_walletState := state_wallet seededStore |} ].
Proof.
  apply (scheduler_pass (state_wallet seededStore) (state_token seededStore) seededStore
           "0xt1" tokenOne tokenOne); vm_compute; reflexivity.
Defined.

(** A table whose only key is the wallet address in upper case: the entry
    holds 5, the refresh reads zero. *)
Lemma tokenInfo_balance_counterexample :
  let table : gmap string string := {[ "0xABC" := "5" ]} in
  byte20 (addressInfo walletABC) = "0xABC"
  ∧ table !! "0xABC" = Some "5"
  ∧ BN_decimal (Some "5") = 5%Z
  ∧ u_balance (tokenInfo BN_decimal initParams table (None : option unit) walletABC tokenOne)
    = Some 0%Z.
Proof. vm_compute. by repeat split. Qed.

(** A table with lower-case keys, read by two wallets that differ in letter
    case; an entry under an upper-case key changes nothing. *)
Lemma tokenInfo_balance_witness :
  let table : gmap string string := {[ "0xaaa" := "42" ]} in
  u_balance (tokenInfo BN_decimal initParams table (None : option unit) walletAAA tokenOne)
    = Some 42%Z
  ∧ u_balance (tokenInfo BN_decimal initParams table None walletAaA tokenOne)
    = u_balance (tokenInfo BN_decimal initParams table None walletAAA tokenOne)
  ∧ u_balance (tokenInfo BN_decimal initParams (<["0xAAA" := "9"]> table) None
                 walletAAA tokenOne)
    = u_balance (tokenInfo BN_decimal initParams table None walletAAA tokenOne).
Proof.
  refine (tokenInfo_balance BN_decimal initParams {[ "0xaaa" := "42" ]} None
            walletAAA walletAaA tokenOne "0xAAA" "9" _ _);
    vm_compute; [reflexivity|discriminate].
Defined.

(** The bootstrap of the example store. *)
Lemma initEffect_native_currency_witness :
  let collection := tokens (state_token seededStore) in
  (∃ zil, collection !! "zil" = Some zil
      ∧ isZil zil = true
      ∧ initialized zil = true
      ∧ balance zil = 500%Z
      ∧ balances zil !! "0xaaa" = Some 500%Z)
  ∧ map_Forall (λ key token, isZil token = true → key = "zil") collection.
Proof.
  apply (initEffect_native_currency Example.ZIL_HASH connector (state_wallet emptyStore)
           (state_token emptyStore) emptyStore walletAAA); reflexivity.
Defined.

(** Every read of the chain is rejected: after the pass and the failed task
    the first token is still loading. *)
Lemma failed_refresh_counterexample :
  let pass := scheduler (state_wallet seededStore) (state_token seededStore) seededStore in
  let task := {| task_key := "0xt1"; task_token := tokenOne;
                 task_walletState := state_wallet seededStore |} in
  getInit offline "0xt1" = None
  ∧ tasksFor "0xt1" pass.2 = [task]
  ∧ loading <$> tokens (state_token (settle BN_decimal offline pass.1 task)) !! "0xt1"
    = Some (Some true)
  ∧ loading <$> tokens (state_token (foldl (settle BN_decimal offline) pass.1 pass.2)) !! "0xt1"
    ≠ Some (Some false).
Proof. vm_compute. by repeat split. Qed.

Lemma failed_refresh_keeps_flags_witness :
  let pass := scheduler (state_wallet seededStore) (state_token seededStore) seededStore in
  let task := {| task_key := "0xt1"; task_token := tokenOne;
                 task_walletState := state_wallet seededStore |} in
  let after := settle BN_decimal offline pass.1 task in
  tasksFor "0xt1" pass.2 = [task]
  ∧ after = pass.1
  ∧ (∃ failed, tokens (state_token after) !! "0xt1" = Some failed
       ∧ loading failed = Some true
       ∧ dirty failed = false
       ∧ initialized failed = true)
  ∧ tasksFor "0xt1" (scheduler (state_wallet seededStore) (state_token after) after).2 = [].
Proof.
  apply (failed_refresh_keeps_flags BN_decimal offline (state_wallet seededStore)
           (state_token seededStore) seededStore "0xt1" tokenOne tokenOne);
    vm_compute; reflexivity.
Defined.

(** The last of two entries named "a" wins. *)
Lemma zilParamsToMap_last_wins_witness :
  zilParamsToMap [] = ∅
  ∧ zilParamsToMap [ {| vname := "a"; vtype := "Uint128"; value := "1" |};
                     {| vname := "a"; vtype := "Uint128"; value := "3" |};
                     {| vname := "b"; vtype := "String"; value := "2" |} ] !! "a"
    = Some "3".
Proof.
  apply (zilParamsToMap_last_wins
           [ {| vname := "a"; vtype := "Uint128"; value := "1" |} ]
           [ {| vname := "b"; vtype := "String"; value := "2" |} ]
           {| vname := "a"; vtype := "Uint128"; value := "3" |}).
  constructor; [simpl; discriminate | constructor].
Defined.

(** The first token refreshed a second time, for the record the first
    refresh left. *)
Lemma queryTokenInfo_deterministic_witness :
  let walletState := state_wallet seededStore in
  let first := queryTokenInfo BN_decimal connector walletState "0xt1" tokenOne seededStore in
  (∀ params table pool wallet,
     tokenInfo BN_decimal params table pool wallet refreshedOne
     = tokenInfo BN_decimal params table pool wallet tokenOne)
  ∧ queryTokenInfo BN_decimal connector walletState "0xt1" refreshedOne first.1 = first.
Proof.
  apply (queryTokenInfo_deterministic BN_decimal connector (state_wallet seededStore)
           "0xt1" tokenOne refreshedOne seededStore); reflexivity.
Defined.

End ButlerSpec.

(** * Further properties of the preference reducer *)

Module PreferenceExtra.
Import Preference.

Section Extra.

Variables TYPES_INIT TYPES_UPDATE : string.
Variable prefersDarkMode : bool.
Variable savedThemePreference : option string.

Local Abbreviation reducer :=
  (Preference.reducer TYPES_INIT TYPES_UPDATE prefersDarkMode savedThemePreference).

Local Arguments JS.includes : simpl never.

Lemma includes_false (t : string) :
  t ≠ "dark" → t ≠ "light" → JS.includes VALID_THEMES t = false.
Proof.
  intros Hd Hl. destruct (JS.includes VALID_THEMES t) eqn:E; [|done].
  apply PreferenceSpec.includes_VALID_THEMES in E. tauto.
Qed.

Lemma includes_true (t : string) :
  t = "dark" ∨ t = "light" → JS.includes VALID_THEMES t = true.
Proof. apply PreferenceSpec.includes_VALID_THEMES. Qed.

(** X1. Whatever was saved and whatever the media query says, the theme the
    store starts with is "dark" or "light". *)
Theorem initial_state_valid :
  theme (initial_state prefersDarkMode savedThemePreference) = Some "dark"
  ∨ theme (initial_state prefersDarkMode savedThemePreference) = Some "light".
Proof.
  unfold initial_state. simpl.
  destruct (JS.includes VALID_THEMES _) eqn:E; [|by right].
  apply PreferenceSpec.includes_VALID_THEMES in E as [-> | ->]; auto.
Qed.

(** X2. A saved theme that is "dark" or "light" is the theme the store
    starts with, whatever the media query says. *)
Theorem initial_state_saved (t : string) :
  savedThemePreference = Some t →
  t = "dark" ∨ t = "light" →
  initial_state prefersDarkMode savedThemePreference = {| theme := Some t |}.
Proof.
  intros -> Hv. unfold initial_state, initialTheme.
  assert (JS.truthy (Some t) = true) as -> by by destruct Hv as [-> | ->].
  by rewrite includes_true.
Qed.

(** X3. A saved value that is not empty and is neither "dark" nor "light"
    makes the store start with "light"; the media query is not consulted. *)
Theorem initial_state_saved_invalid (t : string) :
  savedThemePreference = Some t →
  t ≠ "" → t ≠ "dark" → t ≠ "light" →
  initial_state prefersDarkMode savedThemePreference = {| theme := Some "light" |}.
Proof.
  intros -> He Hd Hl. unfold initial_state, initialTheme.
  assert (JS.truthy (Some t) = true) as ->.
  { simpl. by apply negb_true_iff, String.eqb_neq. }
  by rewrite includes_false.
Qed.

(** X4. No action changes localStorage outside the theme key (with that
    key removed, localStorage is the same before and after), and the value
    under the theme key is afterwards the old one or one of "dark" and
    "light". *)
Theorem reducer_storage_frame (state : option PreferenceState) (a : Action) (ls : Storage) :
  let ls' := (reducer state a ls).2 in
  delete LOCAL_STORAGE_KEY_THEME ls' = delete LOCAL_STORAGE_KEY_THEME ls
  ∧ (ls' !! LOCAL_STORAGE_KEY_THEME = ls !! LOCAL_STORAGE_KEY_THEME
     ∨ ls' !! LOCAL_STORAGE_KEY_THEME = Some "dark"
     ∨ ls' !! LOCAL_STORAGE_KEY_THEME = Some "light").
Proof.
  cbn zeta. unfold Preference.reducer.
  destruct (String.eqb (type a) TYPES_INIT); [by auto|].
  destruct (String.eqb (type a) TYPES_UPDATE); [|by auto]. cbn [snd].
  destruct (PreferenceSpec.checkToSave_cases
              (theme (default (initial_state prefersDarkMode savedThemePreference) state))
              (payload a) ls) as [-> | (t & _ & _ & Hv & ->)]; [by auto|].
  split.
  - apply delete_insert_eq.
  - rewrite lookup_insert_eq. destruct Hv as [-> | ->]; auto.
Qed.

(** X5. A theme saved by an UPDATE action comes back when the module is
    loaded again: the initial state computed from the localStorage the
    reducer left is the state the reducer returned, for either answer of
    the media query. *)
Theorem update_then_reload (S : PreferenceState) (a : Action) (ls : Storage)
    (t : string) (prefersDarkMode' : bool) :
  TYPES_INIT ≠ TYPES_UPDATE →
  type a = TYPES_UPDATE →
  payload_theme (payload a) = Present (Some t) →
  t = "dark" ∨ t = "light" →
  theme S ≠ Some t →
  initial_state prefersDarkMode' ((reducer (Some S) a ls).2 !! LOCAL_STORAGE_KEY_THEME)
  = (reducer (Some S) a ls).1.
Proof.
  intros Hne Ha Hp Hv Hcur. unfold Preference.reducer. simpl.
  assert (String.eqb (type a) TYPES_INIT = false) as ->.
  { apply String.eqb_neq. congruence. }
  assert (String.eqb (type a) TYPES_UPDATE = true) as -> by by apply String.eqb_eq.
  cbn [fst snd].
  unfold checkToSaveThemePreference, read_theme, spread. rewrite Hp.
  assert (JS.truthy (Some t) = true) as Ht by by destruct Hv as [-> | ->].
  rewrite Ht. cbn [negb].
  assert (differs t (theme S) = true) as ->.
  { unfold differs. destruct (theme S) as [c|]; [|done].
    apply negb_true_iff, String.eqb_neq. congruence. }
  rewrite includes_true by done. cbn [andb].
  rewrite lookup_insert_eq.
  unfold initial_state, initialTheme. rewrite Ht. by rewrite includes_true.
Qed.

(** X6. Handling the same action a second time changes nothing: neither
    the state nor localStorage. *)
Theorem reducer_idempotent (state : option PreferenceState) (a : Action) (ls : Storage) :
  reducer (Some (reducer state a ls).1) a (reducer state a ls).2 = reducer state a ls.
Proof.
  unfold Preference.reducer.
  set (S := default (initial_state prefersDarkMode savedThemePreference) state).
  destruct (String.eqb (type a) TYPES_INIT).
  { cbn [fst snd default]. unfold spread. by destruct (payload_theme (payload a)). }
  destruct (String.eqb (type a) TYPES_UPDATE); [|done].
  cbn [fst snd default].
  unfold spread, checkToSaveThemePreference, read_theme.
  destruct (payload_theme (payload a)) as [|[t|]]; cbn [theme]; [done| |done].
  destruct (negb (JS.truthy (Some t))); [done|].
  change (theme (id {| theme := Some t |})) with (Some t).
  assert (differs t (Some t) = false) as ->.
  { unfold differs. by rewrite String.eqb_refl. }
  done.
Qed.

(** X7. If localStorage holds the theme of the state, it still does after
    an UPDATE action whose payload has no theme or has "dark" or "light". *)
Theorem update_keeps_in_sync (S : PreferenceState) (a : Action) (ls : Storage) :
  TYPES_INIT ≠ TYPES_UPDATE →
  type a = TYPES_UPDATE →
  ls !! LOCAL_STORAGE_KEY_THEME = theme S →
  (payload_theme (payload a) = Absent
   ∨ payload_theme (payload a) = Present (Some "dark")
   ∨ payload_theme (payload a) = Present (Some "light")) →
  (reducer (Some S) a ls).2 !! LOCAL_STORAGE_KEY_THEME = theme (reducer (Some S) a ls).1.
Proof.
  intros Hne Ha Hsync Hp. unfold Preference.reducer. simpl.
  assert (String.eqb (type a) TYPES_INIT = false) as ->.
  { apply String.eqb_neq. congruence. }
  assert (String.eqb (type a) TYPES_UPDATE = true) as -> by by apply String.eqb_eq.
  cbn [fst snd]. unfold checkToSaveThemePreference, read_theme, spread.
  destruct Hp as [-> | [-> | ->]]; [done| |].
  - cbn [JS.truthy String.eqb negb Ascii.eqb Bool.eqb andb theme].
    rewrite includes_true by auto. rewrite andb_true_r.
    destruct (differs "dark" (theme S)) eqn:Hd.
    + by rewrite lookup_insert_eq.
    + rewrite Hsync. unfold differs in Hd. destruct (theme S) as [c|]; [|done].
      apply negb_false_iff, String.eqb_eq in Hd. by subst c.
  - cbn [JS.truthy String.eqb negb Ascii.eqb Bool.eqb andb theme].
    rewrite includes_true by auto. rewrite andb_true_r.
    destruct (differs "light" (theme S)) eqn:Hd.
    + by rewrite lookup_insert_eq.
    + rewrite Hsync. unfold differs in Hd. destruct (theme S) as [c|]; [|done].
      apply negb_false_iff, String.eqb_eq in Hd. by subst c.
Qed.

End Extra.

(** A saved "dark" wins over a media query that prefers light. *)
Lemma initial_state_saved_witness :
  initial_state false (Some "dark") = {| theme := Some "dark" |}.
Proof. apply (initial_state_saved false (Some "dark") "dark"); [reflexivity | by left]. Defined.

(** A saved "blue" gives "light" although the media query prefers dark. *)
Lemma initial_state_saved_invalid_witness :
  initial_state true (Some "blue") = {| theme := Some "light" |}.
Proof.
  apply (initial_state_saved_invalid true (Some "blue") "blue");
    [reflexivity | discriminate..].
Defined.

(** "light" is saved over "dark" and comes back although the media query
    prefers dark. *)
Lemma update_then_reload_witness :
  let a := {| type := "PREFERENCE_UPDATE";
              payload := {| payload_theme := Present (Some "light") |} |} in
  let r := reducer "PREFERENCE_INIT" "PREFERENCE_UPDATE" false None
             (Some {| theme := Some "dark" |}) a ∅ in
  initial_state true (r.2 !! LOCAL_STORAGE_KEY_THEME) = r.1.
Proof.
  refine (update_then_reload "PREFERENCE_INIT" "PREFERENCE_UPDATE" false None
            {| theme := Some "dark" |}
            {| type := "PREFERENCE_UPDATE";
               payload := {| payload_theme := Present (Some "light") |} |}
            ∅ "light" true _ _ _ _ _);
    simpl; [discriminate | reflexivity | reflexivity | by right | discriminate].
Defined.

(** State and localStorage both hold "dark"; after the update both hold
    "light". *)
Lemma update_keeps_in_sync_witness :
  let a := {| type := "PREFERENCE_UPDATE";
              payload := {| payload_theme := Present (Some "light") |} |} in
  let r := reducer "PREFERENCE_INIT" "PREFERENCE_UPDATE" false None
             (Some {| theme := Some "dark" |}) a {[ LOCAL_STORAGE_KEY_THEME := "dark" ]} in
  r.2 !! LOCAL_STORAGE_KEY_THEME = theme r.1.
Proof.
  refine (update_keeps_in_sync "PREFERENCE_INIT" "PREFERENCE_UPDATE" false None
            {| theme := Some "dark" |}
            {| type := "PREFERENCE_UPDATE";
               payload := {| payload_theme := Present (Some "light") |} |}
            {[ LOCAL_STORAGE_KEY_THEME := "dark" ]} _ _ _ _);
    simpl; [discriminate | reflexivity | reflexivity | by right; right].
Defined.

End PreferenceExtra.

(** * Further properties of the butler *)

Module ButlerExtra.
Import Butler.

Section Extra.

Context {Pool TxReceipt : Type} `{!TransactionUpdate TxReceipt}.
Variable BN_new : option string → BN.
Variable ZIL_HASH : string.

Implicit Types (token current : TokenInfo Pool) (store : RootState Pool TxReceipt).
Implicit Types (connector : Connector Pool) (walletState : WalletState).
Implicit Types (key : string) (params : list Value).

Ltac async := unfold mbind, Async_bind, await, nonNull, throw, mret, Async_ret, dispatchA.

(** ** [zilParamsToMap] *)

Lemma zilParamsToMap_foldl params (output : gmap string string) :
  foldl (λ output set, <[vname set := value set]> output) output params
  = zilParamsToMap params ∪ output.
Proof.
  induction params as [|set params IH] using rev_ind.
  - unfold zilParamsToMap. simpl. by rewrite (left_id_L ∅ (∪)).
  - rewrite foldl_app. simpl. rewrite IH.
    rewrite ButlerSpec.zilParamsToMap_snoc. by rewrite insert_union_l.
Qed.

(** X8. The keys of the mapping are exactly the names that occur in the
    sequence. *)
Theorem zilParamsToMap_dom params :
  dom (zilParamsToMap params) = list_to_set (vname <$> params).
Proof.
  induction params as [|set params IH] using rev_ind.
  { unfold zilParamsToMap. simpl. by rewrite dom_empty_L. }
  rewrite ButlerSpec.zilParamsToMap_snoc, dom_insert_L, IH.
  rewrite fmap_app, list_to_set_app_L. simpl.
  rewrite (right_id_L ∅ (∪)). apply (comm_L (∪)).
Qed.

(** X9. Decoding a sequence followed by another one gives the mapping of
    the second laid over the mapping of the first: where both have a name,
    the second wins. *)
Theorem zilParamsToMap_app (first second : list Value) :
  zilParamsToMap (first ++ second)%list = zilParamsToMap second ∪ zilParamsToMap first.
Proof.
  unfold zilParamsToMap at 1. rewrite foldl_app.
  by rewrite zilParamsToMap_foldl.
Qed.

(** X10. The declared type of an entry plays no part: the mapping is the
    one built from the pairs of name and value, the later pair winning. *)
Theorem zilParamsToMap_list_to_map params :
  zilParamsToMap params = list_to_map (rev ((λ set, (vname set, value set)) <$> params)).
Proof.
  induction params as [|set params IH] using rev_ind; [done|].
  rewrite ButlerSpec.zilParamsToMap_snoc, fmap_app, rev_app_distr. simpl.
  by rewrite IH.
Qed.

(** ** The [tokenInfo] of a contract-backed refresh *)

(** X11. The balances of the refreshed record have exactly the keys of the
    fetched table, each value converted with [new BN], and the own balance
    is read from these balances under the lower-cased wallet address. *)
Theorem tokenInfo_balances params (contractBalanceState : gmap string string)
    (pool : option Pool) (wallet : ConnectedWallet) token :
  ∃ balances,
    u_balances (tokenInfo BN_new params contractBalanceState pool wallet token)
      = Some balances
    ∧ dom balances = dom contractBalanceState
    ∧ map_Forall (λ owner v, balances !! owner = Some (BN_new (Some v))) contractBalanceState
    ∧ u_balance (tokenInfo BN_new params contractBalanceState pool wallet token)
      = Some (default 0%Z (balances !! JS.toLowerCase (byte20 (addressInfo wallet)))).
Proof.
  exists ((λ v, BN_new (Some v)) <$> contractBalanceState).
  unfold tokenInfo. simpl. rewrite ButlerSpec.convertBalances_fmap.
  split; [done|]. split; [apply dom_fmap_L|]. split; [|done].
  intros owner v Hv. by rewrite lookup_fmap, Hv.
Qed.

(** X12. A contract whose init parameters have no entry named "symbol",
    "name" or "init_supply" gives a refreshed record whose symbol and name
    are [undefined] and whose supply is [new BN(undefined)]. *)
Theorem tokenInfo_missing_params params (contractBalanceState : gmap string string)
    (pool : option Pool) (wallet : ConnectedWallet) token :
  Forall (λ set, vname set ≠ "symbol" ∧ vname set ≠ "name" ∧ vname set ≠ "init_supply")
         params →
  let info := tokenInfo BN_new params contractBalanceState pool wallet token in
  u_symbol info = Some None
  ∧ u_name info = Some None
  ∧ u_init_supply info = Some (BN_new None).
Proof.
  intros Hall. cbn zeta. unfold tokenInfo. simpl.
  rewrite !ButlerSpec.zilParamsToMap_absent; [done|..];
    (eapply Forall_impl; [exact Hall|]); simpl; tauto.
Qed.

(** ** The refresh task at its edges *)

(** X13. The refresh of the ZIL pseudo-token without a private key (no
    wallet, no key, or an empty key) returns at once: nothing is read,
    nothing is dispatched, and the task does not fail. *)
Theorem queryTokenInfo_zil_without_key connector walletState key token store :
  isZil token = true →
  JS.truthy (w ← wallet walletState; privateKey (addressInfo w)) = false →
  queryTokenInfo BN_new connector walletState key token store = (store, Resolved tt).
Proof.
  intros Hz Hk. unfold queryTokenInfo. rewrite Hz.
  cbv zeta. by rewrite Hk.
Qed.

(** X14. A contract-backed refresh started while no wallet is connected
    fails after its reads and dispatches nothing, whatever the reads
    returned. *)
Theorem queryTokenInfo_contract_without_wallet connector walletState key token store :
  isZil token = false →
  wallet walletState = None →
  queryTokenInfo BN_new connector walletState key token store = (store, Rejected).
Proof.
  intros Hz Hw. unfold queryTokenInfo. rewrite Hz, Hw. async.
  destruct (getInit connector key); [|done].
  by destruct (getBalancesMap connector key).
Qed.

(** X15. When the reconnection of the wallet resolves without a wallet, the
    refresh of the ZIL pseudo-token has already dispatched [Wallet.update]
    with the missing wallet when it fails; the token collection is as it
    was. *)
Theorem queryTokenInfo_zil_reconnect_empty connector walletState key token store
    (w : ConnectedWallet) (pk : string) :
  isZil token = true →
  wallet walletState = Some w →
  privateKey (addressInfo w) = Some pk →
  pk ≠ "" →
  connectWalletPrivateKey connector pk (network w) = Some None →
  queryTokenInfo BN_new connector walletState key token store
    = (dispatch (Wallet_update None pk) store, Rejected)
  ∧ state_token (queryTokenInfo BN_new connector walletState key token store).1
    = state_token store.
Proof.
  intros Hz Hw Hpk Hne Hconn. unfold queryTokenInfo. rewrite Hz, Hw. simpl.
  rewrite Hpk.
  assert (JS.truthy (Some pk) = true) as ->.
  { simpl. by apply negb_true_iff, String.eqb_neq. }
  async. simpl. by rewrite Hconn.
Qed.

(** X16. A contract-backed refresh whose reads succeed leaves the record of
    the token initialized, not dirty and not loading, with the fetched
    supply, name, symbol and balances; its list priority stays, and the
    next pass of the scheduler starts no task for it. *)
Theorem refresh_success_settles connector walletState key token current store
    (params : list Value) (table : gmap string string) (w : ConnectedWallet) :
  isZil token = false →
  getInit connector key = Some params →
  getBalancesMap connector key = Some table →
  wallet walletState = Some w →
  tokens (state_token store) !! address token = Some current →
  let task := {| task_key := key; task_token := token; task_walletState := walletState |} in
  let after := settle BN_new connector store task in
  let info := tokenInfo BN_new params table (getPool connector (address token)) w token in
  tokens (state_token after) !! address token = Some (mergeToken info current)
  ∧ initialized (mergeToken info current) = true
  ∧ dirty (mergeToken info current) = false
  ∧ loading (mergeToken info current) = Some false
  ∧ listPriority (mergeToken info current) = listPriority current
  ∧ tasksFor (address token) (scheduler walletState (state_token after) after).2 = [].
Proof.
  intros Hz Hinit Hbal Hw Hcur. cbn zeta.
  assert (tokens (state_token
            (settle BN_new connector store
               {| task_key := key; task_token := token; task_walletState := walletState |}))
          !! address token
          = Some (mergeToken
                    (tokenInfo BN_new params table (getPool connector (address token)) w token)
                    current)) as Hafter.
  { unfold settle, runQueryToken, queryTokenInfo. simpl. rewrite Hz, Hinit. async.
    rewrite Hbal, Hw. simpl. by rewrite lookup_alter_eq, Hcur. }
  split; [exact Hafter|]. do 4 (split; [done|]).
  by rewrite (ButlerSpec.scheduler_tasks _ _ _ _ _ Hafter).
Qed.

(** X17. A refresh of the ZIL pseudo-token whose reconnection succeeds puts
    the reconnected wallet into the store and gives the record the balance
    of that wallet, as own balance and as the only entry of its balances
    (under the lower-cased address); loading is cleared, dirty and
    initialized stay as they were. *)
Theorem zil_refresh_follows_wallet connector walletState key token current store
    (w w' : ConnectedWallet) (pk : string) :
  isZil token = true →
  wallet walletState = Some w →
  privateKey (addressInfo w) = Some pk →
  pk ≠ "" →
  connectWalletPrivateKey connector pk (network w) = Some (Some w') →
  tokens (state_token store) !! key = Some current →
  let task := {| task_key := key; task_token := token; task_walletState := walletState |} in
  let after := settle BN_new connector store task in
  wallet (state_wallet after) = Some w'
  ∧ ∃ zil, tokens (state_token after) !! key = Some zil
      ∧ balance zil = wallet_balance w'
      ∧ balances zil = {[ JS.toLowerCase (byte20 (addressInfo w')) := wallet_balance w' ]}
      ∧ loading zil = Some false
      ∧ dirty zil = dirty current
      ∧ initialized zil = initialized current.
Proof.
  intros Hz Hw Hpk Hne Hconn Hcur. cbn zeta.
  unfold settle, runQueryToken, queryTokenInfo. simpl. rewrite Hz, Hw. simpl. rewrite Hpk.
  assert (JS.truthy (Some pk) = true) as ->.
  { simpl. by apply negb_true_iff, String.eqb_neq. }
  async. simpl. rewrite Hconn. simpl. split; [done|].
  rewrite lookup_alter_eq, Hcur. simpl. eexists. split; [done|]. by repeat split.
Qed.

(** ** The scheduler over the whole collection *)

Lemma filter_none {A} (f : A → bool) (l : list A) :
  Forall (λ x, f x = false) l → List.filter f l = [].
Proof.
  induction 1 as [|x l Hx _ IH]; simpl; [done|]. by rewrite Hx.
Qed.

Lemma scheduler_nothing_stale walletState (tokenState : TokenState Pool) store :
  map_Forall (λ key token, isStale (key, token) = false) (tokens tokenState) →
  scheduler walletState tokenState store = (store, []).
Proof.
  intros Hall. unfold scheduler. rewrite ButlerSpec.schedulerStep_fold. simpl.
  rewrite filter_none; [done|].
  apply Forall_forall. intros [k t] Hin. apply elem_of_map_to_list in Hin.
  exact (Hall k t Hin).
Qed.

(** X18. A pass over a collection in which every record is initialized and
    not dirty (the empty collection included) dispatches nothing and starts
    no task. *)
Theorem scheduler_idle walletState (tokenState : TokenState Pool) store :
  map_Forall (λ key token, initialized token && negb (dirty token) = true)
             (tokens tokenState) →
  scheduler walletState tokenState store = (store, []).
Proof.
  intros Hall. apply scheduler_nothing_stale. intros k t Hkt.
  unfold isStale. simpl. by rewrite (Hall k t Hkt).
Qed.

Lemma scheduler_lookup walletState store key :
  tokens (state_token (scheduler walletState (state_token store) store).1) !! key
  = (λ token, if isStale (key, token) then mergeToken (loadingProps key) token else token)
    <$> tokens (state_token store) !! key.
Proof.
  destruct (tokens (state_token store) !! key) as [t|] eqn:Hkey.
  - rewrite (ButlerSpec.scheduler_store _ _ _ _ _ Hkey), Hkey. simpl.
    by destruct (isStale (key, t)).
  - unfold scheduler. rewrite ButlerSpec.schedulerStep_fold. simpl.
    rewrite ButlerSpec.flip_lookup, Hkey. by case_bool_decide.
Qed.

(** X19. The pass does not trigger itself: a second pass, over the
    collection as the first pass left it, dispatches nothing and starts no
    task. *)
Theorem scheduler_second_pass_idle walletState store :
  let pass := scheduler walletState (state_token store) store in
  scheduler walletState (state_token pass.1) pass.1 = (pass.1, []).
Proof.
  cbn zeta. apply scheduler_nothing_stale. intros k t.
  rewrite scheduler_lookup.
  destruct (tokens (state_token store) !! k) as [t0|]; simpl; [|done].
  intros [= <-]. unfold isStale. simpl.
  destruct (initialized t0 && negb (dirty t0)) eqn:E; simpl; [by rewrite E|done].
Qed.

Lemma filter_fst_NoDup (l : list (string * TokenInfo Pool)) :
  NoDup l.*1 → NoDup (List.filter isStale l).*1.
Proof.
  induction l as [|[k t] l IH]; simpl; [done|].
  rewrite NoDup_cons. intros [Hk Hl].
  destruct (isStale (k, t)); [|by apply IH].
  rewrite fmap_cons. apply NoDup_cons. split; [|by apply IH].
  intros Hin. by apply Hk, ButlerSpec.filter_fst_subseteq.
Qed.

Lemma startTask_keys walletState (l : list (string * TokenInfo Pool)) :
  task_key <$> map (startTask walletState) l = l.*1.
Proof. induction l as [|[k t] l IH]; [done|]. simpl. f_equal. exact IH. Qed.

(** X20. The tasks of one pass are those of the records of the rendered
    collection that are not initialized or are dirty, each with the record
    and the wallet state of the render, and no two tasks are for the same
    key; the store plays no part in which tasks are started. *)
Theorem scheduler_tasks_exact walletState (tokenState : TokenState Pool) store
    (task : @RefreshTask Pool) :
  NoDup (task_key <$> (scheduler walletState tokenState store).2)
  ∧ (task ∈ (scheduler walletState tokenState store).2
     ↔ tokens tokenState !! task_key task = Some (task_token task)
       ∧ initialized (task_token task) && negb (dirty (task_token task)) = false
       ∧ task_walletState task = walletState).
Proof.
  unfold scheduler. rewrite ButlerSpec.schedulerStep_fold. simpl. split.
  - rewrite startTask_keys. apply filter_fst_NoDup, NoDup_fst_map_to_list.
  - rewrite list_elem_of_In, in_map_iff. split.
    + intros [[k t] [<- Hin]]. apply filter_In in Hin as [Hin Hs].
      apply list_elem_of_In, elem_of_map_to_list in Hin. simpl.
      split; [done|]. split; [|done].
      unfold isStale in Hs. simpl in Hs. by apply negb_true_iff.
    + intros (Hkey & Hs & Hw). exists (task_key task, task_token task). split.
      * destruct task as [k t ws]. simpl in *. by subst ws.
      * apply filter_In. split.
        -- by apply list_elem_of_In, elem_of_map_to_list.
        -- unfold isStale. simpl. by rewrite Hs.
Qed.

(** ** The bootstrap and what follows it *)

(** X21. The bootstrap runs once: run again on the store it left (with the
    wallet state and token state of that store), it dispatches nothing. *)
Theorem initEffect_once connector store :
  let after := initEffect ZIL_HASH connector (state_wallet store) (state_token store) store in
  initEffect ZIL_HASH connector (state_wallet after) (state_token after) after = after.
Proof.
  cbn zeta. unfold initEffect.
  destruct (token_initialized (state_token store)) eqn:E; [by rewrite E|].
  destruct (wallet (state_wallet store)) eqn:Hw; [done|]. by rewrite E, Hw.
Qed.

Lemma bootstrap_fold (l : list TokenDetails) (acc : gmap string (TokenInfo Pool)) :
  let collection :=
    foldl (λ tokens token, <[address token := token]> tokens) acc (map mapZilswapToken l) in
  dom collection = dom acc ∪ list_to_set (td_address <$> l)
  ∧ map_Forall (λ key token,
        acc !! key = Some token
        ∨ ∃ D, D ∈ l ∧ td_address D = key ∧ token = mapZilswapToken D) collection.
Proof.
  cbn zeta. revert acc. induction l as [|D l IH]; intros acc.
  - simpl. split; [by rewrite (right_id_L ∅ (∪))|]. intros k t Hk. by left.
  - simpl. destruct (IH (<[td_address D := mapZilswapToken D]> acc)) as [Hdom Hall].
    split.
    + rewrite Hdom, dom_insert_L.
      rewrite (comm_L (∪) {[td_address D]} (dom acc)). by rewrite <- (assoc_L (∪)).
    + intros k t Hk. destruct (Hall k t Hk) as [Hacc | (D' & HD' & Ha & Ht)].
      * rewrite lookup_insert in Hacc. case_decide as Hd.
        -- right. exists D. split; [apply list_elem_of_here|]. split; [done|]. congruence.
        -- by left.
      * right. exists D'. split; [by apply list_elem_of_further|done].
Qed.

(** X22. With a wallet connected and the token state not initialized, the
    bootstrap dispatches one [Token.init] whose collection has as keys
    "zil" and the addresses of the known tokens, holds the ZIL pseudo-token
    under "zil", and under every other key the mapped descriptor of a known
    token with that address. *)
Theorem initEffect_collection connector walletState (tokenState : TokenState Pool) store
    (w : ConnectedWallet) :
  token_initialized tokenState = false →
  wallet walletState = Some w →
  ∃ collection,
    initEffect ZIL_HASH connector walletState tokenState store
      = dispatch (Token_init collection) store
    ∧ dom collection = {["zil"]} ∪ list_to_set (td_address <$> getTokens connector)
    ∧ collection !! "zil" = Some (zilToken ZIL_HASH w)
    ∧ map_Forall (λ key token,
          key = "zil"
          ∨ ∃ D, D ∈ getTokens connector ∧ td_address D = key
                 ∧ token = mapZilswapToken D) collection.
Proof.
  intros Hinit Hw. unfold initEffect. rewrite Hinit, Hw. cbv zeta.
  destruct (bootstrap_fold (getTokens connector) ∅) as [Hdom Hall]. cbn zeta in *.
  eexists. split; [reflexivity|]. split; [|split].
  - rewrite dom_insert_L, Hdom, dom_empty_L. by rewrite (left_id_L ∅ (∪)).
  - apply lookup_insert_eq.
  - intros k t. rewrite lookup_insert. case_decide; [by left|].
    intros Hk. destruct (Hall k t Hk) as [Hempty | HD]; [|by right].
    by rewrite lookup_empty in Hempty.
Qed.

(** X23. The first pass of the scheduler after the bootstrap starts no task
    for the ZIL pseudo-token and exactly one task for the address of every
    known token (other than "zil"), for the mapped descriptor of a known
    token with that address. *)
Theorem bootstrap_then_scheduler connector store (w : ConnectedWallet) (D : TokenDetails) :
  token_initialized (state_token store) = false →
  wallet (state_wallet store) = Some w →
  D ∈ getTokens connector →
  td_address D ≠ "zil" →
  let after := initEffect ZIL_HASH connector (state_wallet store) (state_token store) store in
  let pass := scheduler (state_wallet after) (state_token after) after in
  tasksFor "zil" pass.2 = []
  ∧ ∃ D', D' ∈ getTokens connector ∧ td_address D' = td_address D
      ∧ tasksFor (td_address D) pass.2
        = [ {| task_key := td_address D; task_token := mapZilswapToken D';
               task_walletState := state_wallet after |} ].
Proof.
  intros Hinit Hw HD Hzil. cbn zeta.
  unfold initEffect. rewrite Hinit, Hw. cbv zeta.
  destruct (bootstrap_fold (getTokens connector) ∅) as [Hdom Hall]. cbn zeta in *.
  set (mapped := foldl (λ tokens token, <[address token := token]> tokens) ∅
                       (map mapZilswapToken (getTokens connector))) in *.
  set (collection := <["zil" := zilToken ZIL_HASH w]> mapped).
  set (after := dispatch (Token_init collection) store).
  assert (tokens (state_token after) = collection) as Hcoll by done.
  split.
  - assert (tokens (state_token after) !! "zil" = Some (zilToken ZIL_HASH w)) as Hz.
    { rewrite Hcoll. apply lookup_insert_eq. }
    by rewrite (ButlerSpec.scheduler_tasks _ _ _ _ _ Hz).
  - assert (td_address D ∈ dom mapped) as Hin.
    { rewrite Hdom. apply elem_of_union_r, elem_of_list_to_set.
      apply list_elem_of_fmap. by exists D. }
    apply elem_of_dom in Hin as [t Ht].
    destruct (Hall _ _ Ht) as [Hempty | (D' & HD' & Ha & ->)].
    { by rewrite lookup_empty in Hempty. }
    exists D'. split; [done|]. split; [done|].
    assert (tokens (state_token after) !! td_address D = Some (mapZilswapToken D')) as Hk.
    { rewrite Hcoll. unfold collection. by rewrite lookup_insert_ne. }
    by rewrite (ButlerSpec.scheduler_tasks _ _ _ _ _ Hk).
Qed.

(** X24. After an event for a hash that is tracked (the update keeping
    tracked hashes tracked), the next pass of the scheduler starts exactly
    one task for every record of the collection, the ZIL pseudo-token
    included, each for the record marked dirty. *)
Theorem observer_then_scheduler (tx : ObservedTx) (status : string)
    (receipt : option TxReceipt) walletState store key token :
  (∀ props l h, isTracked h l = true → isTracked h (updateTransactions props l) = true) →
  isTracked (tx_hash tx) (transactions (state_transaction store)) = true →
  tokens (state_token store) !! key = Some token →
  let after := observer tx status receipt store in
  let pass := scheduler walletState (state_token after) after in
  tasksFor key pass.2
  = [ {| task_key := key; task_token := invalidateToken token;
         task_walletState := walletState |} ].
Proof.
  intros Hkeep Htracked Hkey. cbn zeta.
  assert (tokens (state_token (observer tx status receipt store)) !! key
          = Some (invalidateToken token)) as Hafter.
  { rewrite ButlerSpec.observer_cases. cbn zeta. rewrite (Hkeep _ _ _ Htracked).
    simpl. by rewrite lookup_fmap, Hkey. }
  rewrite (ButlerSpec.scheduler_tasks _ _ _ _ _ Hafter).
  unfold isStale. simpl. by rewrite andb_false_r.
Qed.

(** ** Tasks that resolve in either order *)

Lemma contract_settle connector (task : @RefreshTask Pool) :
  isZil (task_token task) = false →
  (∀ store, settle BN_new connector store task = store)
  ∨ ∃ props, u_address props = address (task_token task)
      ∧ ∀ store, settle BN_new connector store task = dispatch (Token_update props) store.
Proof.
  intros Hz. unfold settle, runQueryToken, queryTokenInfo. rewrite Hz. async.
  destruct (getInit connector (task_key task)); [|by left].
  destruct (getBalancesMap connector (task_key task)); [|by left].
  destruct (wallet (task_walletState task)); [|by left].
  right. eexists. split; [|done]. done.
Qed.

Lemma dispatch_Token_update_comm (p1 p2 : TokenUpdateProps Pool) store :
  u_address p1 ≠ u_address p2 →
  dispatch (Token_update p2) (dispatch (Token_update p1) store)
  = dispatch (Token_update p1) (dispatch (Token_update p2) store).
Proof.
  intros Hne. unfold dispatch. simpl. do 2 f_equal. by apply alter_alter_ne.
Qed.

(** X25. Two contract-backed refreshes of tokens with different addresses
    leave the same store whichever of them resolves first. *)
Theorem settle_commute connector store (task1 task2 : @RefreshTask Pool) :
  isZil (task_token task1) = false →
  isZil (task_token task2) = false →
  address (task_token task1) ≠ address (task_token task2) →
  settle BN_new connector (settle BN_new connector store task1) task2
  = settle BN_new connector (settle BN_new connector store task2) task1.
Proof.
  intros Hz1 Hz2 Hne.
  destruct (contract_settle connector task1 Hz1) as [H1 | (p1 & Ha1 & H1)];
    destruct (contract_settle connector task2 Hz2) as [H2 | (p2 & Ha2 & H2)];
    repeat (rewrite H1 || rewrite H2); try done.
  apply dispatch_Token_update_comm. congruence.
Qed.

(** ** What a pass leaves alone *)

Lemma flipEntry_frame (es : list (string * TokenInfo Pool)) store :
  state_wallet (foldl flipEntry store es) = state_wallet store
  ∧ state_transaction (foldl flipEntry store es) = state_transaction store
  ∧ token_initialized (state_token (foldl flipEntry store es))
    = token_initialized (state_token store).
Proof.
  revert store. induction es as [|e es IH]; intros store; [done|].
  simpl. destruct (IH (flipEntry store e)) as (-> & -> & ->). done.
Qed.

(** X26. A pass of the scheduler leaves the wallet, the transactions and
    the initialized mark of the token state, and every record keeps its
    balance, balances, supply, name, symbol, decimals, pool, list priority
    and native-currency mark.  Beside the three flags the one property of a
    record that a pass can change is its address: a record that is flipped
    takes the key of its entry as address (for the ZIL pseudo-token, kept
    under "zil", that replaces [ZIL_HASH]); a record that is skipped keeps
    its address. *)
Theorem scheduler_keeps_data walletState store key current :
  tokens (state_token store) !! key = Some current →
  let pass := scheduler walletState (state_token store) store in
  state_wallet pass.1 = state_wallet store
  ∧ state_transaction pass.1 = state_transaction store
  ∧ token_initialized (state_token pass.1) = token_initialized (state_token store)
  ∧ ∃ kept, tokens (state_token pass.1) !! key = Some kept
      ∧ balance kept = balance current
      ∧ balances kept = balances current
      ∧ init_supply kept = init_supply current
      ∧ name kept = name current
      ∧ symbol kept = symbol current
      ∧ decimals kept = decimals current
      ∧ pool kept = pool current
      ∧ listPriority kept = listPriority current
      ∧ isZil kept = isZil current
      ∧ address kept
        = if initialized current && negb (dirty current) then address current else key.
Proof.
  intros Hcur. cbn zeta.
  pose proof (scheduler_lookup walletState store key) as Hlook. rewrite Hcur in Hlook.
  unfold scheduler in *. rewrite ButlerSpec.schedulerStep_fold in *. simpl in *.
  destruct (flipEntry_frame
              (List.filter isStale (map_to_list (tokens (state_token store)))) store)
    as (Hw & Ht & Hi).
  split; [done|]. split; [done|]. split; [done|].
  eexists. split; [exact Hlook|]. unfold isStale. simpl.
  by destruct (initialized current && negb (dirty current)).
Qed.

End Extra.

(** ** Examples *)

Import Example.

Lemma tokenInfo_missing_params_witness :
  let info := tokenInfo BN_decimal ownerOnly {[ "0xaaa" := "42" ]} (None : option unit)
                walletAAA tokenOne in
  u_symbol info = Some None
  ∧ u_name info = Some None
  ∧ u_init_supply info = Some (BN_decimal None).
Proof.
  refine (tokenInfo_missing_params BN_decimal ownerOnly {[ "0xaaa" := "42" ]} None
            walletAAA tokenOne _).
  constructor; [simpl; repeat split; discriminate | constructor].
Defined.

(** [walletAaA] has no private key. *)
Lemma queryTokenInfo_zil_without_key_witness :
  queryTokenInfo BN_decimal connector {| wallet := Some walletAaA |} "zil" zilRecord
    zilOnlyStore
  = (zilOnlyStore, Resolved tt).
Proof.
  apply (queryTokenInfo_zil_without_key BN_decimal connector
           {| wallet := Some walletAaA |} "zil" zilRecord zilOnlyStore); reflexivity.
Defined.

Lemma queryTokenInfo_contract_without_wallet_witness :
  queryTokenInfo BN_decimal connector noWallet "0xt1" tokenOne seededStore
  = (seededStore, Rejected).
Proof.
  apply (queryTokenInfo_contract_without_wallet BN_decimal connector noWallet
           "0xt1" tokenOne seededStore); reflexivity.
Defined.

Lemma queryTokenInfo_zil_reconnect_empty_witness :
  queryTokenInfo BN_decimal reconnectEmpty (state_wallet zilOnlyStore) "zil" zilRecord
    zilOnlyStore
    = (dispatch (Wallet_update None "key") zilOnlyStore, Rejected)
  ∧ state_token
      (queryTokenInfo BN_decimal reconnectEmpty (state_wallet zilOnlyStore) "zil" zilRecord
         zilOnlyStore).1
    = state_token zilOnlyStore.
Proof.
  refine (queryTokenInfo_zil_reconnect_empty BN_decimal reconnectEmpty
            (state_wallet zilOnlyStore) "zil" zilRecord zilOnlyStore walletAAA "key"
            _ _ _ _ _);
    simpl; (reflexivity || discriminate).
Defined.

(** The first token refreshed on the store after the bootstrap. *)
Lemma refresh_success_settles_witness :
  let task := {| task_key := "0xt1"; task_token := tokenOne;
                 task_walletState := state_wallet seededStore |} in
  let after := settle BN_decimal connector seededStore task in
  let info := tokenInfo BN_decimal initParams {[ "0xaaa" := "42" ]} None walletAAA tokenOne in
  tokens (state_token after) !! "0xt1" = Some (mergeToken info tokenOne)
  ∧ initialized (mergeToken info tokenOne) = true
  ∧ dirty (mergeToken info tokenOne) = false
  ∧ loading (mergeToken info tokenOne) = Some false
  ∧ listPriority (mergeToken info tokenOne) = listPriority tokenOne
  ∧ tasksFor "0xt1" (scheduler (state_wallet seededStore) (state_token after) after).2 = [].
Proof.
  refine (refresh_success_settles BN_decimal connector (state_wallet seededStore)
            "0xt1" tokenOne tokenOne seededStore initParams {[ "0xaaa" := "42" ]} walletAAA
            _ _ _ _ _);
    vm_compute; reflexivity.
Defined.

(** The ZIL pseudo-token after a reconnection that gives balance 900. *)
Lemma zil_refresh_follows_wallet_witness :
  let task := {| task_key := "zil"; task_token := zilRecord;
                 task_walletState := state_wallet zilOnlyStore |} in
  let after := settle BN_decimal reconnecting zilOnlyStore task in
  wallet (state_wallet after) = Some walletLater
  ∧ ∃ zil, tokens (state_token after) !! "zil" = Some zil
      ∧ balance zil = 900%Z
      ∧ balances zil = {[ "0xaaa" := 900%Z ]}
      ∧ loading zil = Some false
      ∧ dirty zil = false
      ∧ initialized zil = true.
Proof.
  refine (zil_refresh_follows_wallet BN_decimal reconnecting (state_wallet zilOnlyStore)
            "zil" zilRecord zilRecord zilOnlyStore walletAAA walletLater "key"
            _ _ _ _ _ _);
    vm_compute; (reflexivity || discriminate).
Defined.

Lemma scheduler_idle_witness :
  scheduler (state_wallet zilOnlyStore) (state_token zilOnlyStore) zilOnlyStore
  = (zilOnlyStore, []).
Proof.
  apply (scheduler_idle (state_wallet zilOnlyStore) (state_token zilOnlyStore) zilOnlyStore).
  apply map_Forall_singleton. reflexivity.
Defined.

Lemma initEffect_collection_witness :
  ∃ collection,
    seededStore = dispatch (Token_init collection) emptyStore
    ∧ dom collection = {["zil"]} ∪ list_to_set ["0xt1"; "0xt2"]
    ∧ collection !! "zil" = Some zilRecord
    ∧ map_Forall (λ key token,
          key = "zil"
          ∨ ∃ D, D ∈ getTokens connector ∧ td_address D = key
                 ∧ token = mapZilswapToken D) collection.
Proof.
  refine (initEffect_collection Example.ZIL_HASH connector (state_wallet emptyStore)
            (state_token emptyStore) emptyStore walletAAA _ _); reflexivity.
Defined.

Lemma bootstrap_then_scheduler_witness :
  let pass := scheduler (state_wallet seededStore) (state_token seededStore) seededStore in
  tasksFor "zil" pass.2 = []
  ∧ ∃ D', D' ∈ getTokens connector ∧ td_address D' = "0xt1"
      ∧ tasksFor "0xt1" pass.2
        = [ {| task_key := "0xt1"; task_token := mapZilswapToken D';
               task_walletState := state_wallet seededStore |} ].
Proof.
  refine (bootstrap_then_scheduler Example.ZIL_HASH connector emptyStore walletAAA
            {| td_address := "0xt1"; td_decimals := 6; td_symbol := "ONE" |} _ _ _ _);
    [reflexivity | reflexivity | apply list_elem_of_here | simpl; discriminate].
Defined.

Lemma observer_then_scheduler_witness :
  let after := observer {| tx_hash := "0xh1"; deadline := 10 |} "confirmed" None
                 trackingStore in
  tasksFor "0xt1" (scheduler (state_wallet trackingStore) (state_token after) after).2
  = [ {| task_key := "0xt1"; task_token := invalidateToken tokenOne;
         task_walletState := state_wallet trackingStore |} ].
Proof.
  refine (observer_then_scheduler {| tx_hash := "0xh1"; deadline := 10 |} "confirmed" None
            (state_wallet trackingStore) trackingStore "0xt1" tokenOne
            ButlerSpec.updateTracked_keeps _ _);
    vm_compute; reflexivity.
Defined.

Lemma settle_commute_witness :
  let task1 := {| task_key := "0xt1"; task_token := tokenOne;
                  task_walletState := state_wallet seededStore |} in
  let task2 := {| task_key := "0xt2"; task_token := tokenTwo;
                  task_walletState := state_wallet seededStore |} in
  settle BN_decimal connector (settle BN_decimal connector seededStore task1) task2
  = settle BN_decimal connector (settle BN_decimal connector seededStore task2) task1.
Proof.
  refine (settle_commute BN_decimal connector seededStore
            {| task_key := "0xt1"; task_token := tokenOne;
               task_walletState := state_wallet seededStore |}
            {| task_key := "0xt2"; task_token := tokenTwo;
               task_walletState := state_wallet seededStore |} _ _ _);
    simpl; (reflexivity || discriminate).
Defined.

(** The ZIL pseudo-token, dirty after an event: the pass keeps its data and
    replaces its address by the key "zil". *)
Lemma scheduler_keeps_data_witness :
  let pass :=
    scheduler (state_wallet invalidatedStore) (state_token invalidatedStore)
              invalidatedStore in
  state_wallet pass.1 = state_wallet invalidatedStore
  ∧ state_transaction pass.1 = state_transaction invalidatedStore
  ∧ token_initialized (state_token pass.1) = token_initialized (state_token invalidatedStore)
  ∧ ∃ kept, tokens (state_token pass.1) !! "zil" = Some kept
      ∧ balance kept = balance zilRecord
      ∧ balances kept = balances zilRecord
      ∧ init_supply kept = init_supply zilRecord
      ∧ name kept = name zilRecord
      ∧ symbol kept = symbol zilRecord
      ∧ decimals kept = decimals zilRecord
      ∧ pool kept = pool zilRecord
      ∧ listPriority kept = listPriority zilRecord
      ∧ isZil kept = isZil zilRecord
      ∧ address kept = "zil".
Proof.
  refine (scheduler_keeps_data (state_wallet invalidatedStore) invalidatedStore "zil"
            (invalidateToken zilRecord) _).
  vm_compute. reflexivity.
Defined.

End ButlerExtra.
